(** * PatientDatabase.js: the IndexedDB-backed patient record store

    A shallow embedding of [src/PatientDatabase.js] (class [PatientDatabase],
    global instance [patientDB]) together with the part of the browser
    platform the class relies on:

    - JavaScript values, strings and numbers as far as the store touches
      them ([toLowerCase], [trim], [includes], [parseInt], [isNaN], [===],
      object spread);
    - one IndexedDB object store ["patients"] created with
      [{ keyPath: "id", autoIncrement: true }]: in-line keys, a key
      generator, [add], [put], [get], [getAll], [delete], after the
      algorithms of the W3C Indexed Database API as the browsers run
      them.  Faults of the engine that no input determines (quota, I/O)
      are not modelled.

    Every method of the class builds a promise.  A promise is modelled by
    how it settles; the state of the handle and of the object store is
    passed explicitly. *)

From Stdlib Require Import ZArith Ascii String List Bool Lia.
From Stdlib Require Import Floats Uint63.
From stdpp Require Import base option list sorting countable gmap strings.

Local Open Scope string_scope.
Local Open Scope Z_scope.

(** ** JavaScript numbers

    Numbers are IEEE doubles.  The store only meets integer-valued ones
    (ids, ages, what [parseInt] returns), the two infinities and [NaN], so
    a number is one of these; [Int z] stands for the double whose value is
    the integer [z].  Fractional numbers are outside the model. *)

Inductive number :=
  | NaN
  | Inf (neg : bool)
  | Int (z : Z).

(** The ECMAScript "Number value for x" at an integer [x]: the nearest
    double, ties to even, and an infinity from 2^1024 on. *)
Definition number_of_Z (z : Z) : number :=
  let a := Z.abs z in
  if a <? 2 ^ 53 then Int z
  else
    let e := Z.log2 a - 52 in
    let q := Z.shiftr a e in
    let r := Z.land a (Z.ones e) in
    let half := 2 ^ (e - 1) in
    let q' := if (half <? r) || ((r =? half) && Z.odd q) then q + 1 else q in
    let m := Z.shiftl q' e in
    if 2 ^ 1024 <=? m then Inf (z <? 0) else Int (Z.sgn z * m).

(** [z] is the value of some double. *)
Definition representable (z : Z) : Prop := number_of_Z z = Int z.

Definition isNaN (n : number) : bool :=
  match n with NaN => true | _ => false end.

(** [x === y] on two numbers: [NaN] equals nothing, [-0] and [+0] are both
    [Int 0]. *)
Definition number_strict_eq (x y : number) : bool :=
  match x, y with
  | Int a, Int b => a =? b
  | Inf s, Inf t => Bool.eqb s t
  | _, _ => false
  end.

(** ** JavaScript strings

    A string is a sequence of code units.  Rocq's [string] offers the code
    units 0..255, that is the Latin-1 range of UTF-16; the string
    operations below are the ECMAScript ones restricted to that range. *)

Definition code (c : ascii) : Z := Z.of_N (N_of_ascii c).

(** [String.prototype.toLowerCase] on one code unit: A..Z and the
    Latin-1 capitals U+00C0..U+00DE (without the multiplication sign
    U+00D7) move up by 32; nothing else in the range has a lower-case
    mapping. *)
Definition lower_char (c : ascii) : ascii :=
  let n := code c in
  if ((65 <=? n) && (n <=? 90)) || ((192 <=? n) && (n <=? 222) && negb (n =? 215))
  then ascii_of_N (Z.to_N (n + 32))
  else c.

Fixpoint toLowerCase (s : string) : string :=
  match s with
  | EmptyString => EmptyString
  | String c s' => String (lower_char c) (toLowerCase s')
  end.

(** WhiteSpace and LineTerminator code units of the range: TAB, LF, VT,
    FF, CR, SP and NBSP. *)
Definition is_white_space (c : ascii) : bool :=
  let n := code c in
  ((9 <=? n) && (n <=? 13)) || (n =? 32) || (n =? 160).

Fixpoint trim_start (s : string) : string :=
  match s with
  | EmptyString => EmptyString
  | String c s' => if is_white_space c then trim_start s' else s
  end.

Definition is_empty (s : string) : bool :=
  match s with EmptyString => true | _ => false end.

Fixpoint trim_end (s : string) : string :=
  match s with
  | EmptyString => EmptyString
  | String c s' =>
      let t := trim_end s' in
      if is_white_space c && is_empty t then EmptyString else String c t
  end.

(** [String.prototype.trim]. *)
Definition trim (s : string) : string := trim_end (trim_start s).

(** [String.prototype.includes]: [t] occurs in [s] at some position. *)
Fixpoint includes (s t : string) : bool :=
  String.prefix t s ||
  match s with
  | EmptyString => false
  | String _ s' => includes s' t
  end.

(** *** parseInt

    [parseInt(string)] with no radix argument (ECMAScript 19.2.5): skip
    leading white space, take an optional sign, switch to radix 16 after a
    [0x]/[0X] prefix, read the longest run of digits of the radix, and
    return the Number value of the signed integer, or [NaN] when the run
    is empty.  (An implementation may replace the digits after the 20th
    significant one by zeros; that option is not taken here.) *)

Definition digit_value (radix : Z) (c : ascii) : option Z :=
  let n := code c in
  let d :=
    if (48 <=? n) && (n <=? 57) then Some (n - 48)
    else if (97 <=? n) && (n <=? 122) then Some (n - 87)
    else if (65 <=? n) && (n <=? 90) then Some (n - 55)
    else None in
  match d with
  | Some v => if v <? radix then Some v else None
  | None => None
  end.

(** The digits of the longest prefix of [s] made of radix-[radix] digits. *)
Fixpoint leading_digits (radix : Z) (s : string) : list Z :=
  match s with
  | EmptyString => []
  | String c s' =>
      match digit_value radix c with
      | Some v => v :: leading_digits radix s'
      | None => []
      end
  end.

Definition digits_value (radix : Z) (ds : list Z) : Z :=
  fold_left (fun acc d => acc * radix + d) ds 0.

Definition strip_sign (s : string) : bool * string :=
  match s with
  | String c r =>
      if Ascii.eqb c "-" then (true, r)
      else if Ascii.eqb c "+" then (false, r)
      else (false, s)
  | EmptyString => (false, s)
  end.

Definition has_hex_prefix (s : string) : bool :=
  match s with
  | String c (String x _) =>
      Ascii.eqb c "0" && (Ascii.eqb x "x" || Ascii.eqb x "X")
  | _ => false
  end.

Definition strip_prefix (s : string) : Z * string :=
  match s with
  | String _ (String _ r) => if has_hex_prefix s then (16, r) else (10, s)
  | _ => (10, s)
  end.

Definition parseInt (s : string) : number :=
  let '(neg, s1) := strip_sign (trim_start s) in
  let '(radix, s2) := strip_prefix s1 in
  match leading_digits radix s2 with
  | [] => NaN
  | ds =>
      let mathInt := digits_value radix ds in
      number_of_Z (if neg then - mathInt else mathInt)
  end.

(** ** JavaScript values and objects

    The values a patient record holds: primitives and the report's [Blob].
    A plain object is a finite map from property names to values; a
    property set to [undefined] is present with value [VUndefined]. *)

Inductive value :=
  | VUndefined
  | VNull
  | VBool (b : bool)
  | VNum (n : number)
  | VStr (s : string)
  | VBlob (data : list Byte.byte).

Abbreviation object := (gmap string value).

(** [o.f]: a missing property reads as [undefined]. *)
Definition get_prop (o : object) (f : string) : value :=
  default VUndefined (o !! f).

(** [x === y].  Two blobs are two objects: every read of the store hands
    out fresh clones, so they are never identical. *)
Definition strict_eq (x y : value) : bool :=
  match x, y with
  | VUndefined, VUndefined => true
  | VNull, VNull => true
  | VBool a, VBool b => Bool.eqb a b
  | VNum a, VNum b => number_strict_eq a b
  | VStr a, VStr b => String.eqb a b
  | _, _ => false
  end.

(** [{ ...a, ...b }]: the properties of [b] overwrite those of [a]. *)
Definition spread (a b : object) : object := b ∪ a.

(** ** JavaScript errors and promises *)

Inductive dom_exception :=
  | DataError
  | ConstraintError
  | VersionError
  | UnknownError.

Inductive error :=
  | TypeError
  | DOMException (name : dom_exception)
  | Error (message : string).

(** [e.name]. *)
Definition error_name (e : error) : string :=
  match e with
  | TypeError => "TypeError"
  | DOMException DataError => "DataError"
  | DOMException ConstraintError => "ConstraintError"
  | DOMException VersionError => "VersionError"
  | DOMException UnknownError => "UnknownError"
  | Error _ => "Error"
  end.

(** How the promise a method returns ends up.  An exception thrown by the
    executor of [new Promise] rejects the promise; one thrown inside a
    request's [onsuccess] handler reaches neither [resolve] nor [reject],
    so that promise stays pending for ever: [Unsettled]. *)
Inductive promise (A : Type) :=
  | Resolved (result : A)
  | Rejected (reason : error)
  | Unsettled.

Arguments Resolved {A} result.
Arguments Rejected {A} reason.
Arguments Unsettled {A}.

(** ** IndexedDB: keys

    A value is a valid key when it is a number other than [NaN] or a
    string (dates, buffers and arrays do not occur here).  Keys are
    ordered: numbers by value, then strings by code units. *)

Inductive key :=
  | KInf (neg : bool)
  | KInt (z : Z)
  | KStr (s : string).

Definition convert_value_to_key (v : value) : option key :=
  match v with
  | VNum (Int z) => Some (KInt z)
  | VNum (Inf neg) => Some (KInf neg)
  | VStr s => Some (KStr s)
  | _ => None
  end.

Definition key_value (k : key) : value :=
  match k with
  | KInf neg => VNum (Inf neg)
  | KInt z => VNum (Int z)
  | KStr s => VStr s
  end.

Definition key_leb (a b : key) : bool :=
  match a, b with
  | KInf true, _ => true
  | _, KInf true => false
  | KInt x, KInt y => x <=? y
  | KInt _, _ => true
  | KInf false, KInt _ => false
  | KInf false, _ => true
  | KStr x, KStr y => String.leb x y
  | KStr _, _ => false
  end.

#[global] Instance key_eq_dec : EqDecision key.
Proof. solve_decision. Defined.

Definition key_encode (k : key) : bool + Z + string :=
  match k with
  | KInf neg => inl (inl neg)
  | KInt z => inl (inr z)
  | KStr s => inr s
  end.

Definition key_decode (x : bool + Z + string) : key :=
  match x with
  | inl (inl neg) => KInf neg
  | inl (inr z) => KInt z
  | inr s => KStr s
  end.

#[global] Instance key_countable : Countable key.
Proof.
  apply (inj_countable' key_encode key_decode).
  intros []; reflexivity.
Defined.

(** ** IndexedDB: the object store

    The database [PGScannerDB] holds one object store, ["patients"],
    created with [keyPath: "id"] and [autoIncrement: true]: the key of a
    record is its [id] property, and the store owns a key generator whose
    current number starts at 1.  (The two indexes on [name] and
    [createdAt] are not unique and no method reads them; they put no
    constraint on a write.) *)

Record IDBDatabase := {
  patients : gmap key object;
  current_number : Z
}.

(** What [createObjectStore] leaves behind in [onupgradeneeded]. *)
Definition createObjectStore : IDBDatabase :=
  {| patients := ∅; current_number := 1 |}.

(** What placing a request does: it succeeds with a result and a new
    store, fails with an error event (the transaction is rolled back), or
    the call itself throws before any request exists. *)
Inductive request (A : Type) :=
  | Success (result : A) (after : IDBDatabase)
  | Failure (e : dom_exception)
  | Throws (e : dom_exception).

Arguments Success {A} result after.
Arguments Failure {A} e.
Arguments Throws {A} e.

(** Evaluating the key path ["id"] on a value: there is no key when the
    value has no own property [id].  A property that is present is read,
    also when it holds [undefined]: the browsers then find that the key
    path "yielded a value that is not a valid key", so that [add] and
    [put] throw a [DataError] instead of generating a key. *)
Definition evaluate_key_path (v : object) : option value := v !! "id".

(** "Possibly update the key generator": an explicit numeric key at or
    above the current number moves the generator past it. *)
Definition update_key_generator (k : key) (current : Z) : Z :=
  match k with
  | KInt z => let v := Z.min z (2 ^ 53) in
              if current <=? v then v + 1 else current
  | KInf false => if current <=? 2 ^ 53 then 2 ^ 53 + 1 else current
  | _ => current
  end.

(** [objectStore.add(v)] ([no_overwrite = true]) and [objectStore.put(v)]
    ([no_overwrite = false]). *)
Definition store_record (no_overwrite : bool) (v : object) (s : IDBDatabase)
  : request key :=
  match evaluate_key_path v with
  | None =>
      let n := current_number s in
      if 2 ^ 53 <? n then Failure ConstraintError
      else if no_overwrite && bool_decide (is_Some (patients s !! KInt n))
      then Failure ConstraintError
      else Success (KInt n)
             {| patients := <[KInt n := <["id" := VNum (Int n)]> v]> (patients s);
                current_number := n + 1 |}
  | Some x =>
      match convert_value_to_key x with
      | None => Throws DataError
      | Some k =>
          if no_overwrite && bool_decide (is_Some (patients s !! k))
          then Failure ConstraintError
          else Success k
                 {| patients := <[k := v]> (patients s);
                    current_number := update_key_generator k (current_number s) |}
      end
  end.

Definition add := store_record true.
Definition put := store_record false.

Definition key_le (a b : key * object) : Prop := key_leb a.1 b.1 = true.

#[global] Instance key_le_dec : RelDecision key_le.
Proof. intros a b. unfold key_le. apply _. Defined.

(** [objectStore.getAll()]: every record, in ascending key order. *)
Definition getAll (s : IDBDatabase) : list object :=
  (merge_sort key_le (map_to_list (patients s))).*2.

(** ** The class PatientDatabase *)

Record PatientDatabase := {
  dbName : string;
  version : Z;
  db : option IDBDatabase
}.

(** [new PatientDatabase()]. *)
Definition constructor : PatientDatabase :=
  {| dbName := "PGScannerDB"; version := 1; db := None |}.

Definition set_db (h : PatientDatabase) (s : IDBDatabase) : PatientDatabase :=
  {| dbName := dbName h; version := version h; db := Some s |}.

(** What [indexedDB.open] finds: the database as an earlier session left
    it ([None] on the very first open), or a failure to open. *)
Inductive open_outcome :=
  | Opened (existing : option IDBDatabase)
  | OpenFailed (e : dom_exception).

Definition init (o : open_outcome) (h : PatientDatabase)
  : promise IDBDatabase * PatientDatabase :=
  match o with
  | OpenFailed e => (Rejected (DOMException e), h)
  | Opened existing =>
      let s := default createObjectStore existing in
      (Resolved s, set_db h s)
  end.

(** [now] is what [new Date().toISOString()] returns during the call. *)
Definition addPatient (now : string) (patientData : object) (h : PatientDatabase)
  : promise value * PatientDatabase :=
  match db h with
  | None => (Rejected TypeError, h)
  | Some s =>
      let patient := <["createdAt" := VStr now]> patientData in
      match add patient s with
      | Success k s' => (Resolved (key_value k), set_db h s')
      | Failure e => (Rejected (DOMException e), h)
      | Throws e => (Rejected (DOMException e), h)
      end
  end.

Definition getAllPatients (h : PatientDatabase) : promise (list object) :=
  match db h with
  | None => Rejected TypeError
  | Some s => Resolved (getAll s)
  end.

(** The result is [undefined] ([None]) when no record has the key. *)
Definition getPatientById (id : value) (h : PatientDatabase)
  : promise (option object) :=
  match db h with
  | None => Rejected TypeError
  | Some s =>
      match convert_value_to_key id with
      | None => Rejected (DOMException DataError)
      | Some k => Resolved (patients s !! k)
      end
  end.

(** The callback of [patients.filter]; [None] when it throws, which is
    when [p.name] has no [toLowerCase] method. *)
Definition search_filter (searchId : number) (lowerSearchTerm : string)
    (p : object) : option bool :=
  if negb (isNaN searchId) && strict_eq (get_prop p "id") (VNum searchId)
  then Some true
  else
    match get_prop p "name" with
    | VStr name =>
        if includes (toLowerCase name) lowerSearchTerm then Some true
        else Some false
    | _ => None
    end.

(** [Array.prototype.filter] with a callback that may throw. *)
Fixpoint filter_throwing {A : Type} (f : A -> option bool) (l : list A)
  : option (list A) :=
  match l with
  | [] => Some []
  | x :: l' =>
      match f x with
      | None => None
      | Some b =>
          match filter_throwing f l' with
          | None => None
          | Some r => Some (if b then x :: r else r)
          end
      end
  end.

Definition searchPatients (searchTerm : string) (h : PatientDatabase)
  : promise (list object) :=
  match db h with
  | None => Rejected TypeError
  | Some s =>
      let patients := getAll s in
      let lowerSearchTerm := trim (toLowerCase searchTerm) in
      let searchId := parseInt searchTerm in
      match filter_throwing (search_filter searchId lowerSearchTerm) patients with
      | Some filtered => Resolved filtered
      | None => Unsettled
      end
  end.

Definition updatePatient (id : value) (updates : object) (h : PatientDatabase)
  : promise object * PatientDatabase :=
  match db h with
  | None => (Rejected TypeError, h)
  | Some s =>
      match convert_value_to_key id with
      | None => (Rejected (DOMException DataError), h)
      | Some k =>
          match patients s !! k with
          | Some patient =>
              let updatedPatient := spread patient updates in
              match put updatedPatient s with
              | Success _ s' => (Resolved updatedPatient, set_db h s')
              | Failure e => (Rejected (DOMException e), h)
              | Throws _ => (Unsettled, h)
              end
          | None => (Rejected (Error "Patient not found"), h)
          end
      end
  end.

Definition deletePatient (id : value) (h : PatientDatabase)
  : promise unit * PatientDatabase :=
  match db h with
  | None => (Rejected TypeError, h)
  | Some s =>
      match convert_value_to_key id with
      | None => (Rejected (DOMException DataError), h)
      | Some k =>
          (Resolved tt,
           set_db h {| patients := delete k (patients s);
                       current_number := current_number s |})
      end
  end.

(** ** Sequences of calls

    The calls that write, and what a sequence of them leaves behind. *)

Inductive call :=
  | Add (now : string) (patientData : object)
  | Update (id : value) (updates : object)
  | Delete (id : value).

Definition step (h : PatientDatabase) (c : call) : PatientDatabase :=
  match c with
  | Add now patientData => (addPatient now patientData h).2
  | Update id updates => (updatePatient id updates h).2
  | Delete id => (deletePatient id h).2
  end.

Definition run (cs : list call) (h : PatientDatabase) : PatientDatabase :=
  fold_left step cs h.






(** ** Invariants and vocabulary of the statements *)

(** The store keeps every record under the key its [id] converts to, and
    the key generator is past every stored key. *)
Definition wf_db (s : IDBDatabase) : Prop :=
  map_Forall
    (fun k p =>
       convert_value_to_key (get_prop p "id") = Some k /\
       update_key_generator k (current_number s) = current_number s)
    (patients s).

#[global] Instance wf_db_dec s : Decision (wf_db s).
Proof. unfold wf_db. apply _. Defined.

(** The data model's [name : text]. *)
Definition name_is_string (p : object) : bool :=
  match p !! "name" with
  | Some (VStr _) => true
  | _ => false
  end.

Definition names_are_strings (s : IDBDatabase) : Prop :=
  map_Forall (fun _ p => name_is_string p = true) (patients s).

#[global] Instance names_are_strings_dec s : Decision (names_are_strings s).
Proof. unfold names_are_strings. apply _. Defined.

(** The two search criteria, in the words of the specification: the id
    equals the number the term parses to, and the lower-cased name
    contains the lower-cased trimmed term. *)
Definition id_matches (term : string) (p : object) : Prop :=
  parseInt term <> NaN /\ p !! "id" = Some (VNum (parseInt term)).

Definition name_matches (term : string) (p : object) : Prop :=
  exists name pre post,
    p !! "name" = Some (VStr name) /\
    toLowerCase name = pre +:+ toLowerCase (trim term) +:+ post.

(** The callback of [filter] when it does not throw. *)
Definition search_keep (searchId : number) (lowerSearchTerm : string)
    (p : object) : bool :=
  (negb (isNaN searchId) && strict_eq (get_prop p "id") (VNum searchId))
  || match get_prop p "name" with
     | VStr name => includes (toLowerCase name) lowerSearchTerm
     | _ => false
     end.

Fixpoint all_white_space (s : string) : bool :=
  match s with
  | EmptyString => true
  | String c s' => is_white_space c && all_white_space s'
  end.

Definition is_decimal_digit (c : ascii) : bool :=
  (48 <=? code c) && (code c <=? 57).

Fixpoint all_decimal_digits (s : string) : bool :=
  match s with
  | EmptyString => true
  | String c s' => is_decimal_digit c && all_decimal_digits s'
  end.

Definition starts_with_digit (s : string) : bool :=
  match s with
  | EmptyString => false
  | String c _ => is_decimal_digit c
  end.

(** The integer a string of decimal digits denotes. *)
Fixpoint decimal_value_from (acc : Z) (s : string) : Z :=
  match s with
  | EmptyString => acc
  | String c s' => decimal_value_from (10 * acc + (code c - 48)) s'
  end.

Definition decimal_value (s : string) : Z := decimal_value_from 0 s.

(** ** Sample records and stores *)

Definition iso_2024 : string := "2024-01-01T00:00:00.000Z".

(** What the form hands over: name, age, sex and notes. *)
Definition candidate (name : string) (age : Z) (sex notes : string) : object :=
  {[ "name" := VStr name; "age" := VNum (Int age); "sex" := VStr sex;
     "notes" := VStr notes ]}.

(** The candidate of the specification's scenario A. *)
Definition bob : object := candidate "Bob" 45 "M" EmptyString.

Definition stored (id : Z) (createdAt : string) (candidate : object) : object :=
  <["id" := VNum (Int id)]> (<["createdAt" := VStr createdAt]> candidate).

(** A freshly opened handle, and the same after [addPatient(bob)]. *)
Definition fresh : PatientDatabase := set_db constructor createObjectStore.

Definition bob_store : IDBDatabase :=
  {| patients := {[ KInt 1 := stored 1 iso_2024 bob ]}; current_number := 2 |}.

Definition bob_handle : PatientDatabase := set_db constructor bob_store.

(** The store of property P5: Jon under id 7, and a 7-Eleven. *)
Definition jon : object := stored 7 iso_2024 (candidate "Jon" 30 "M" EmptyString).
Definition eleven : object := stored 8 iso_2024 (candidate "7-Eleven" 52 "F" EmptyString).

Definition shop_store : IDBDatabase :=
  {| patients := {[ KInt 7 := jon; KInt 8 := eleven ]}; current_number := 9 |}.

Definition shop_handle : PatientDatabase := set_db constructor shop_store.

(** The store of property P6. *)
Definition alice : object := stored 1 iso_2024 (candidate "Alice Smith" 28 "F" EmptyString).

Definition alice_store : IDBDatabase :=
  {| patients := {[ KInt 1 := alice ]}; current_number := 2 |}.

Definition alice_handle : PatientDatabase := set_db constructor alice_store.

(** A store whose only record was inserted with an id of the caller's,
    0, as [addPatient({id: 0, name: "Bob", ...})] leaves it. *)
Definition zero : object :=
  <["createdAt" := VStr iso_2024]> (<["id" := VNum (Int 0)]> bob).

Definition zero_store : IDBDatabase :=
  {| patients := {[ KInt 0 := zero ]}; current_number := 1 |}.

Definition zero_handle : PatientDatabase := set_db constructor zero_store.

(** ** Vocabulary of the store's further properties *)

(** The key a stored record carries in its [id]. *)
Definition record_key (p : object) : option key :=
  convert_value_to_key (get_prop p "id").

(** The strict order of keys. *)
Definition key_lt (a b : key) : Prop := key_leb a b = true /\ a <> b.

(** [p] comes before [q] in key order. *)
Definition before (p q : object) : Prop :=
  exists a b, record_key p = Some a /\ record_key q = Some b /\ key_lt a b.

(** The records all have a number for an id, as every id is that the
    store assigns. *)
Definition id_is_number (p : object) : bool :=
  match p !! "id" with
  | Some (VNum _) => true
  | _ => false
  end.

Definition ids_are_numbers (s : IDBDatabase) : Prop :=
  map_Forall (fun _ p => id_is_number p = true) (patients s).

#[global] Instance ids_are_numbers_dec s : Decision (ids_are_numbers s).
Proof. unfold ids_are_numbers. apply _. Defined.

(** A store whose only record has no name: what [addPatient({})] leaves. *)
Definition nameless : object := stored 1 iso_2024 ∅.

Definition nameless_store : IDBDatabase :=
  {| patients := {[ KInt 1 := nameless ]}; current_number := 2 |}.

Definition nameless_handle : PatientDatabase := set_db constructor nameless_store.

(** ** Numbers and values as text

    [Number::toString] (ECMAScript 6.1.6.1.20) on the numbers of the
    model, and [ToString] and [ToBoolean] on values: what a template
    literal, [String(n)] and a condition do with a value. *)

Definition digit_char (d : Z) : ascii := ascii_of_N (Z.to_N (48 + d)).

(** The decimal digits of [n], most significant first, put before [acc]. *)
Fixpoint decimal_digits_fuel (fuel : nat) (n : Z) (acc : string) : string :=
  match fuel with
  | O => acc
  | S fuel' =>
      let acc' := String (digit_char (n mod 10)) acc in
      if n <? 10 then acc' else decimal_digits_fuel fuel' (n / 10) acc'
  end.

Definition decimal_digits (n : Z) : string :=
  decimal_digits_fuel (S (Z.to_nat (Z.log2 n))) n EmptyString.

Definition decimal_length (n : Z) : Z :=
  Z.of_nat (String.length (decimal_digits n)).

(** The [k]-digit integer [s] for which [s * 10^(n-k)] is read back as
    the double [z] and lies closest to it (the even one of two). *)
Definition shortest_at (z k n : Z) : option Z :=
  let e := n - k in
  let lo := z / 10 ^ e in
  let hi := lo + 1 in
  let fits s :=
    (10 ^ (k - 1) <=? s) && (s <? 10 ^ k) &&
    match number_of_Z (s * 10 ^ e) with
    | Int y => y =? z
    | _ => false
    end in
  match fits lo, fits hi with
  | true, true =>
      let below := z - lo * 10 ^ e in
      let above := hi * 10 ^ e - z in
      Some (if below <? above then lo
            else if above <? below then hi
            else if Z.even lo then lo else hi)
  | true, false => Some lo
  | false, true => Some hi
  | false, false => None
  end.

(** The least [k], with its [s] and [n]; seventeen digits always do. *)
Fixpoint shortest_digits (fuel : nat) (z len k : Z) : Z * Z * Z :=
  match fuel with
  | O => (z, len, len)
  | S fuel' =>
      match shortest_at z k len with
      | Some s => (s, k, len)
      | None =>
          match shortest_at z k (len + 1) with
          | Some s => (s, k, len + 1)
          | None => shortest_digits fuel' z len (k + 1)
          end
      end
  end.

Fixpoint zeros (n : nat) : string :=
  match n with
  | O => EmptyString
  | S n' => String "0" (zeros n')
  end.

(** A positive integer-valued double as text.  Below 2^53 every integer
    is a double of its own and the shortest digits that read back as it
    are its decimal expansion. *)
Definition unsigned_toString (z : Z) : string :=
  if z <? 2 ^ 53 then decimal_digits z
  else
    let '(s, k, n) := shortest_digits 17 z (decimal_length z) 1 in
    let digits := decimal_digits s in
    if n <=? 21 then digits +:+ zeros (Z.to_nat (n - k))
    else
      match digits with
      | String d EmptyString => String d ("e+" +:+ decimal_digits (n - 1))
      | String d more =>
          String d ("." +:+ more +:+ "e+" +:+ decimal_digits (n - 1))
      | EmptyString => EmptyString
      end.

Definition Number_toString (x : number) : string :=
  match x with
  | NaN => "NaN"
  | Inf neg => if neg then "-Infinity" else "Infinity"
  | Int z => if z <? 0 then String "-" (unsigned_toString (- z))
             else unsigned_toString z
  end.

Definition ToString (v : value) : string :=
  match v with
  | VUndefined => "undefined"
  | VNull => "null"
  | VBool b => if b then "true" else "false"
  | VNum n => Number_toString n
  | VStr s => s
  | VBlob _ => "[object Blob]"
  end.

Definition ToBoolean (v : value) : bool :=
  match v with
  | VUndefined | VNull => false
  | VBool b => b
  | VNum NaN => false
  | VNum (Int z) => negb (z =? 0)
  | VNum (Inf _) => true
  | VStr s => negb (is_empty s)
  | VBlob _ => true
  end.

(** ** PdfExport.js: file names *)

Fixpoint repeat_string (n : nat) (s : string) : string :=
  match n with
  | O => EmptyString
  | S n' => s +:+ repeat_string n' s
  end.

(** [String.prototype.padStart]: nothing is cut off; the filler is
    repeated and truncated to the missing length. *)
Definition padStart (s : string) (targetLength : nat) (fillString : string)
  : string :=
  let stringLength := String.length s in
  if (targetLength <=? stringLength)%nat then s
  else if is_empty fillString then s
  else
    let fillLen := (targetLength - stringLength)%nat in
    String.substring 0 fillLen (repeat_string fillLen fillString) +:+ s.

(** [const pad = (n) => String(n).padStart(2, "0")]. *)
Definition pad (n : number) : string := padStart (Number_toString n) 2 "0".

(** The local-time fields of a [Date], as its getters return them. *)
Record Date := {
  getFullYear : Z;
  getMonth : Z;
  getDate : Z;
  getHours : Z;
  getMinutes : Z;
  getSeconds : Z
}.

(** [timestamp()], where [d] is [new Date()]. *)
Definition timestamp (d : Date) : string :=
  Number_toString (Int (getFullYear d)) +:+ pad (Int (getMonth d + 1))
  +:+ pad (Int (getDate d)) +:+ "_" +:+ pad (Int (getHours d))
  +:+ pad (Int (getMinutes d)) +:+ pad (Int (getSeconds d)).

Definition is_alphanumeric (c : ascii) : bool :=
  let n := code c in
  ((48 <=? n) && (n <=? 57)) || ((65 <=? n) && (n <=? 90))
  || ((97 <=? n) && (n <=? 122)).

(** [patientName.replace(/[^a-zA-Z0-9]/g, "_")]. *)
Fixpoint safe_name (patientName : string) : string :=
  match patientName with
  | EmptyString => EmptyString
  | String c rest =>
      String (if is_alphanumeric c then c else "_"%char) (safe_name rest)
  end.

(** The file name [exportToPDF(patientId, patientName)] settles on, where
    [ts] is what [timestamp()] returns; [None] when the call throws,
    which is when [patientName] is truthy and has no [replace] method. *)
Definition export_filename (patientId patientName : value) (ts : string)
  : option string :=
  if ToBoolean patientId && ToBoolean patientName then
    match patientName with
    | VStr name =>
        Some ("PG-Scan_ID" +:+ ToString patientId +:+ "_" +:+ safe_name name
              +:+ "_" +:+ ts +:+ ".pdf")
    | _ => None
    end
  else if ToBoolean patientId then
    Some ("PG-Scan_ID" +:+ ToString patientId +:+ "_" +:+ ts +:+ ".pdf")
  else Some ("PG-Scan_" +:+ ts +:+ ".pdf").

(** A date whose year has four digits and whose fields are in range. *)
Definition four_digit_year (d : Date) : Prop :=
  1000 <= getFullYear d <= 9999 /\ 0 <= getMonth d <= 11 /\
  1 <= getDate d <= 31 /\ 0 <= getHours d <= 23 /\
  0 <= getMinutes d <= 59 /\ 0 <= getSeconds d <= 59.

(** 14 March 2024, 09:05:07. *)
Definition pi_day : Date :=
  {| getFullYear := 2024; getMonth := 2; getDate := 14;
     getHours := 9; getMinutes := 5; getSeconds := 7 |}.

(** The string is empty or starts with something other than white space. *)
Definition starts_clean (v : string) : bool :=
  match v with
  | EmptyString => true
  | String c _ => negb (is_white_space c)
  end.

Fixpoint string_forallb (f : ascii -> bool) (s : string) : bool :=
  match s with
  | EmptyString => true
  | String c s' => f c && string_forallb f s'
  end.

(** Letters, digits, and the three marks the file names are built with. *)
Definition is_filename_char (c : ascii) : bool :=
  is_alphanumeric c || Ascii.eqb c "_" || Ascii.eqb c "-" || Ascii.eqb c ".".

Definition is_word_char (c : ascii) : bool :=
  is_alphanumeric c || Ascii.eqb c "_".

(** ** PdfExport.js: the confidence text

    What [getConfidenceText] reads off the page: an element's [innerText]
    and [textContent] ([None] when the property is [undefined] or
    [null]), and the child elements of the label container. *)

Record Element := {
  innerText : option string;
  textContent : option string
}.

Record Container := {
  container_element : Element;
  children : list Element
}.

(** [el.innerText ?? el.textContent ?? ""]. *)
Definition element_text (el : Element) : string :=
  match innerText el with
  | Some t => t
  | None => default EmptyString (textContent el)
  end.

Definition newline : string := String "010"%char EmptyString.

Definition no_confidence : string := "No confidence values available.".

(** [c] is what [document.getElementById("label-container")] returns. *)
Definition getConfidenceText (c : option Container) : string :=
  match c with
  | None => no_confidence
  | Some c =>
      let lines :=
        List.filter (fun t => negb (is_empty t))
          (map (fun el => trim (element_text el)) (children c)) in
      if negb (Nat.eqb (length lines) 0) then String.concat newline lines
      else
        let t := trim (element_text (container_element c)) in
        if is_empty t then no_confidence else t
  end.

(** ** PdfExport.js: the report

    The jsPDF document is the sequence of drawing calls made on it;
    coordinates are doubles.  Two calls of the library compute something:
    [splitTextToSize] and [output("blob")], which serialises the calls
    made so far. *)

Inductive pdf_op :=
  | SetFont (name style : string)
  | SetFontSize (size : float)
  | SetTextColor (r g b : float)
  | Text (content : string) (x y : float)
  | TextLines (content : list string) (x y : float)
  | AddImage (data format : string) (x y w h : float)
  | AddPage.

Class JsPDF := {
  splitTextToSize : string -> float -> list string;
  output : list pdf_op -> list Byte.byte
}.

(** What [exportToPDF] finds around it. *)
Record export_env := {
  page_width : float;            (* pdf.internal.pageSize.getWidth() *)
  page_height : float;           (* pdf.internal.pageSize.getHeight() *)
  generated_at : string;         (* new Date().toLocaleString() *)
  snapshot : option string;      (* await getSnapshotDataURL() *)
  image_size : option (float * float);
                                 (* img.width, img.height once [onload] has
                                    fired; [None] when it never fires *)
  clock : Date;                  (* new Date() inside timestamp() *)
  label_container : option Container
                                 (* getElementById("label-container") *)
}.

Record export_result := {
  filename : string;
  pdfBlob : list Byte.byte
}.

Definition margin : float := 36%float.

(** The calls up to [pdf.output("blob")], and [y] at that point; [None]
    when the snapshot image never loads. *)
Definition report_head (env : export_env) : option (list pdf_op * float) :=
  let y := margin in
  let title :=
    [SetFont "helvetica" "bold"; SetFontSize 18;
     Text "PG Scanner Report" margin y] in
  let y := PrimFloat.add y 22 in
  let generated :=
    [SetFont "helvetica" "normal"; SetFontSize 11;
     Text ("Generated: " +:+ generated_at env) margin y] in
  let y := PrimFloat.add y 16 in
  match snapshot env with
  | Some imgData =>
      if is_empty imgData then
        Some ((title ++ generated ++
               [SetTextColor 200 0 0;
                Text "Snapshot unavailable (camera not ready)." margin y;
                SetTextColor 0 0 0])%list,
              PrimFloat.add y 18)
      else
        match image_size env with
        | None => None
        | Some (img_width, img_height) =>
            let maxW := PrimFloat.sub (page_width env) (PrimFloat.mul margin 2) in
            let scale := PrimFloat.div maxW img_width in
            let drawW := maxW in
            let drawH := PrimFloat.mul img_height scale in
            Some ((title ++ generated ++
                   [AddImage imgData "JPEG" margin y drawW drawH])%list,
                  PrimFloat.add y (PrimFloat.add drawH 18))
        end
  | None =>
      Some ((title ++ generated ++
             [SetTextColor 200 0 0;
              Text "Snapshot unavailable (camera not ready)." margin y;
              SetTextColor 0 0 0])%list,
            PrimFloat.add y 18)
  end.

(** The calls after [pdf.output("blob")]: the confidence section. *)
Definition report_tail `{JsPDF} (env : export_env) (y : float) : list pdf_op :=
  let heading :=
    [SetFont "helvetica" "bold"; SetFontSize 14;
     Text "Confidence Levels" margin y] in
  let y := PrimFloat.add y 16 in
  let wrapped :=
    splitTextToSize (getConfidenceText (label_container env))
      (PrimFloat.sub (page_width env) (PrimFloat.mul margin 2)) in
  let lines := PrimFloat.of_uint63 (Uint63.of_Z (Z.of_nat (length wrapped))) in
  let overflows :=
    PrimFloat.ltb (PrimFloat.sub (page_height env) margin)
                  (PrimFloat.add y (PrimFloat.mul lines 14)) in
  (heading ++ [SetFont "helvetica" "normal"; SetFontSize 12]
   ++ (if overflows then [AddPage; TextLines wrapped margin margin]
       else [TextLines wrapped margin y]))%list.

(** [exportToPDF(patientId, patientName)]: how its promise settles, and
    the file [pdf.save] hands to the browser, if it gets that far. *)
Definition exportToPDF `{JsPDF} (patientId patientName : value)
    (env : export_env)
  : promise export_result * option (string * list Byte.byte) :=
  match report_head env with
  | None => (Unsettled, None)
  | Some (head, y) =>
      let pdfBlob := output head in
      match export_filename patientId patientName (timestamp (clock env)) with
      | None => (Rejected TypeError, None)
      | Some filename =>
          let document := (head ++ report_tail env y)%list in
          (Resolved {| filename := filename; pdfBlob := pdfBlob |},
           Some (filename, output document))
      end
  end.

(** ** TeachableScript.js: picking the class to show *)

Record Prediction := {
  className : string;
  probability : float
}.

(** The loop of [predict] over [prediction[0 .. maxPredictions-1]]: the
    outer [None] is the [TypeError] of reading [className] off a missing
    entry, the inner [None] is [pgPrediction === null]. *)
Fixpoint find_pg (maxPredictions : nat) (prediction : list Prediction)
  : option (option Prediction) :=
  match maxPredictions with
  | O => Some None
  | S rest =>
      match prediction with
      | [] => None
      | p :: more =>
          if includes (toLowerCase (className p)) "pg" then Some (Some p)
          else find_pg rest more
      end
  end.

Definition names_pg (p : Prediction) : Prop :=
  exists pre post, toLowerCase (className p) = pre +:+ "pg" +:+ post.

(** ** App.js *)

(** What the Start Camera handler keeps of the form, once the form was
    accepted. *)
Definition form_data (name age sex notes : string) : object :=
  {[ "name" := VStr (trim name); "age" := VNum (parseInt age);
     "sex" := VStr sex; "notes" := VStr (trim notes) ]}.

Record App := {
  currentPatientData : option object;
  patientDB : PatientDatabase
}.

(** An [alert]: a fixed text, or a text that ends in [error.message]. *)
Inductive alert :=
  | Alert (text : string)
  | AlertError (text : string) (e : error).

Definition save_failed : string :=
  "PDF exported but failed to save patient record." +:+ newline +:+ newline
  +:+ "Error: ".

(** [exportToPDFWithPatient()]; [now] is the time [addPatient] reads. *)
Definition exportToPDFWithPatient `{JsPDF} (env : export_env) (now : string)
    (a : App) : App * list alert :=
  match currentPatientData a with
  | None =>
      (a, [Alert "Patient data not found. Please restart the application."])
  | Some data =>
      match (exportToPDF VUndefined VUndefined env).1 with
      | Unsettled => (a, [])
      | Rejected e => (a, [AlertError save_failed e])
      | Resolved r =>
          let data' :=
            <["pdfBlob" := VBlob (pdfBlob r)]>
              (<["pdfFilename" := VStr (filename r)]> data) in
          match addPatient now data' (patientDB a) with
          | (Resolved patientId, db') =>
              ({| currentPatientData := Some data'; patientDB := db' |},
               [Alert ("Patient record saved successfully! Record ID: "
                       +:+ ToString patientId)])
          | (Rejected e, db') =>
              ({| currentPatientData := Some data'; patientDB := db' |},
               [AlertError save_failed e])
          | (Unsettled, db') =>
              ({| currentPatientData := Some data'; patientDB := db' |}, [])
          end
      end
  end.

(** What [downloadPatientPDF(id)] ends in. *)
Inductive download_outcome :=
  | Download (data : list Byte.byte) (name : string)
  | Alerted (text : string).

Definition pdf_not_available : string :=
  "PDF file not available. The PDF may have been generated before this feature was added.".

Definition downloadPatientPDF (id : value) (a : App) : option download_outcome :=
  match getPatientById id (patientDB a) with
  | Resolved (Some patient) =>
      if ToBoolean (get_prop patient "pdfBlob") then
        match get_prop patient "pdfBlob" with
        | VBlob data =>
            Some (Download data
                    (if ToBoolean (get_prop patient "pdfFilename")
                     then ToString (get_prop patient "pdfFilename")
                     else "Patient-" +:+ ToString id +:+ "-Report.pdf"))
        | _ => Some (Alerted "Failed to download PDF.")
        end
      else Some (Alerted pdf_not_available)
  | Resolved None => Some (Alerted pdf_not_available)
  | Rejected _ => Some (Alerted "Failed to download PDF.")
  | Unsettled => None
  end.

Definition dq : string := String "034"%char EmptyString.

(** [new Date(v).toLocaleDateString()] depends on the browser's locale. *)
Class Locale := {
  toLocaleDateString : value -> string
}.

(** One row of the records table. *)
Definition record_row `{Locale} (patient : object) : string :=
  let id := ToString (get_prop patient "id") in
  let date := toLocaleDateString (get_prop patient "createdAt") in
  let showPdfButton :=
    ToBoolean (get_prop patient "pdfBlob")
    || ToBoolean (get_prop patient "pdfFilename") in
  "<tr>" +:+ newline
  +:+ "      <td>" +:+ id +:+ "</td>" +:+ newline
  +:+ "      <td>" +:+ ToString (get_prop patient "name") +:+ "</td>" +:+ newline
  +:+ "      <td>" +:+ ToString (get_prop patient "age") +:+ "</td>" +:+ newline
  +:+ "      <td>" +:+ ToString (get_prop patient "sex") +:+ "</td>" +:+ newline
  +:+ "      <td>" +:+ date +:+ "</td>" +:+ newline
  +:+ "      <td>" +:+ newline
  +:+ "        <button onclick=" +:+ dq +:+ "viewPatientDetails(" +:+ id +:+ ")"
  +:+ dq +:+ ">View</button>" +:+ newline
  +:+ "        "
  +:+ (if showPdfButton
       then "<button onclick=" +:+ dq +:+ "downloadPatientPDF(" +:+ id +:+ ")"
            +:+ dq +:+ ">Download PDF</button>"
       else EmptyString)
  +:+ newline
  +:+ "        <button onclick=" +:+ dq +:+ "deletePatientRecord(" +:+ id +:+ ")"
  +:+ dq +:+ ">Delete</button>" +:+ newline
  +:+ "      </td>" +:+ newline
  +:+ "    </tr>".

Definition no_records : string := "<p>No records found.</p>".

Definition table_head : string :=
  "<table class='records-table'>"
  +:+ "<thead><tr><th>ID</th><th>Name</th><th>Age</th><th>Sex</th><th>Date</th><th>Actions</th></tr></thead>"
  +:+ "<tbody>".

(** [displayRecords(patients)]: what it assigns to [recordsList.innerHTML]. *)
Definition displayRecords `{Locale} (patients : list object) : string :=
  match patients with
  | [] => no_records
  | _ =>
      fold_left (fun html patient => html +:+ record_row patient) patients
        table_head
      +:+ "</tbody></table>"
  end.

(** [loadAllRecords()]: what [recordsList.innerHTML] becomes; [None] when
    it is left as it was. *)
Definition loadAllRecords `{Locale} (a : App) : option string :=
  match getAllPatients (patientDB a) with
  | Resolved patients => Some (displayRecords patients)
  | Rejected _ => Some "<p>Error loading records.</p>"
  | Unsettled => None
  end.

(** The click handler of the search button, [input] being
    [searchInput.value]. *)
Definition search_click `{Locale} (input : string) (a : App) : option string :=
  let searchTerm := trim input in
  if is_empty searchTerm then None
  else
    match searchPatients searchTerm (patientDB a) with
    | Resolved results => Some (displayRecords results)
    | _ => None
    end.

(** [deletePatientRecord(id)], [confirmed] being what [confirm] returns. *)
Definition deletePatientRecord `{Locale} (confirmed : bool) (id : value) (a : App)
  : App * list alert * option string :=
  if confirmed then
    match deletePatient id (patientDB a) with
    | (Resolved _, db') =>
        let a' := {| currentPatientData := currentPatientData a;
                     patientDB := db' |} in
        (a', [Alert "Record deleted successfully!"], loadAllRecords a')
    | (Rejected _, db') =>
        ({| currentPatientData := currentPatientData a; patientDB := db' |},
         [Alert "Failed to delete record."], None)
    | (Unsettled, db') =>
        ({| currentPatientData := currentPatientData a; patientDB := db' |},
         [], None)
    end
  else (a, [], None).

(** Sample surroundings: an A4 page, a toy serialisation that keeps the
    texts drawn, and a locale that shows the stored text as it is. *)
Definition sample_env : export_env :=
  {| page_width := 0x1.29a3d70a3d70ap+9%float;   (* 595.28 *)
     page_height := 0x1.a4f1eb851eb85p+9%float;  (* 841.89 *)
     generated_at := "3/14/2024, 9:05:07 AM";
     snapshot := None; image_size := None; clock := pi_day;
     label_container :=
       Some {| container_element :=
                 {| innerText := Some "PG Detected: 82.5%"; textContent := None |};
               children :=
                 [{| innerText := Some " PG Detected: 82.5% ";
                     textContent := None |}] |} |}.

Definition op_bytes (op : pdf_op) : list Byte.byte :=
  match op with
  | Text content _ _ => list_byte_of_string content
  | TextLines content _ _ => concat (map list_byte_of_string content)
  | _ => []
  end.

Definition sample_jsPDF : JsPDF :=
  {| splitTextToSize := fun text _ => [text];
     output := fun ops => concat (map op_bytes ops) |}.

Definition sample_locale : Locale :=
  {| toLocaleDateString := ToString |}.

Definition sample_app : App :=
  {| currentPatientData := Some (form_data " Bob " "45" "M" EmptyString);
     patientDB := fresh |}.

(** The calls that make up the confidence section. *)
Definition draws_confidence (op : pdf_op) : Prop :=
  (exists x y, op = Text "Confidence Levels" x y) \/
  (exists content x y, op = TextLines content x y).

(** * Properties *)

(** ** Strings *)

Section strings.

Lemma is_white_space_lower_char c :
  is_white_space (lower_char c) = is_white_space c.
Proof. destruct c as [[] [] [] [] [] [] [] []]; reflexivity. Qed.

Lemma is_empty_toLowerCase s : is_empty (toLowerCase s) = is_empty s.
Proof. destruct s; reflexivity. Qed.

Lemma toLowerCase_trim_start s :
  toLowerCase (trim_start s) = trim_start (toLowerCase s).
Proof.
  induction s as [|c s IH]; simpl; [reflexivity|].
  rewrite is_white_space_lower_char.
  destruct (is_white_space c); [exact IH | reflexivity].
Qed.

Lemma toLowerCase_trim_end s :
  toLowerCase (trim_end s) = trim_end (toLowerCase s).
Proof.
  induction s as [|c s IH]; simpl; [reflexivity|].
  rewrite is_white_space_lower_char, <- IH, is_empty_toLowerCase.
  destruct (is_white_space c && is_empty (trim_end s)); reflexivity.
Qed.

(** Trimming and lower-casing commute: "the lower-cased trimmed term"
    is what the code computes as [searchTerm.toLowerCase().trim()]. *)
Lemma toLowerCase_trim s : toLowerCase (trim s) = trim (toLowerCase s).
Proof.
  unfold trim. by rewrite toLowerCase_trim_end, toLowerCase_trim_start.
Qed.

Lemma append_cons c (s t : string) : String c s +:+ t = String c (s +:+ t).
Proof. reflexivity. Qed.

Lemma append_nil (t : string) : EmptyString +:+ t = t.
Proof. reflexivity. Qed.

Lemma prefix_spec t s :
  String.prefix t s = true <-> exists post, s = t +:+ post.
Proof.
  revert s. induction t as [|c t IH]; intros s.
  - split; [intros _; by exists s | intros _; by destruct s].
  - destruct s as [|d s]; simpl.
    + split; [done | intros [post Hp]; by rewrite append_cons in Hp].
    + setoid_rewrite append_cons.
      destruct (ascii_dec c d) as [->|Hne].
      * rewrite IH. split; intros [post Hp]; exists post; congruence.
      * split; [done | intros [post Hp]; congruence].
Qed.

(** [includes] is substring containment. *)
Lemma includes_spec s t :
  includes s t = true <-> exists pre post, s = pre +:+ t +:+ post.
Proof.
  induction s as [|c s IH].
  - change (includes EmptyString t) with (String.prefix t EmptyString || false).
    rewrite orb_false_r, prefix_spec. split.
    + intros [post Hp]. by exists EmptyString, post.
    + intros [pre [post Hp]]. destruct pre; [by exists post | done].
  - change (includes (String c s) t)
      with (String.prefix t (String c s) || includes s t).
    rewrite orb_true_iff, prefix_spec, IH. split.
    + intros [[post Hp] | [pre [post Hp]]].
      * by exists EmptyString, post.
      * exists (String c pre), post. by rewrite append_cons, Hp.
    + intros [pre [post Hp]]. destruct pre as [|d pre].
      * left. by exists post.
      * right. exists pre, post. rewrite append_cons in Hp. congruence.
Qed.

Lemma includes_empty s : includes s EmptyString = true.
Proof. destruct s; reflexivity. Qed.

End strings.

(** ** The object store *)

Section store.

Implicit Types (s : IDBDatabase) (h : PatientDatabase) (p : object) (k : key).

Lemma elem_of_getAll s p :
  p ∈ getAll s <-> exists k, patients s !! k = Some p.
Proof.
  unfold getAll. rewrite list_elem_of_fmap. split.
  - intros [[k q] [-> Hin]]. rewrite merge_sort_Permutation in Hin.
    apply elem_of_map_to_list in Hin. eauto.
  - intros [k Hk]. exists (k, p). split; [done|].
    rewrite merge_sort_Permutation. by apply elem_of_map_to_list.
Qed.

Lemma wf_db_key s k p :
  wf_db s -> patients s !! k = Some p ->
  convert_value_to_key (get_prop p "id") = Some k.
Proof. intros Hwf Hk. by destruct (Hwf k p Hk). Qed.

(** Two stored records are different objects: their ids differ. *)
Lemma NoDup_getAll s : wf_db s -> NoDup (getAll s).
Proof.
  intros Hwf. unfold getAll. apply NoDup_fmap_2_strong.
  - intros [k1 p1] [k2 p2] H1 H2 Heq. simpl in Heq. subst p2.
    rewrite merge_sort_Permutation in H1, H2.
    apply elem_of_map_to_list in H1, H2.
    pose proof (wf_db_key _ _ _ Hwf H1) as E1.
    pose proof (wf_db_key _ _ _ Hwf H2) as E2.
    congruence.
  - rewrite merge_sort_Permutation. apply NoDup_map_to_list.
Qed.

Lemma update_key_generator_ge k c : c <= update_key_generator k c.
Proof.
  destruct k as [[]|z|]; simpl; try lia.
  - destruct (c <=? 2 ^ 53) eqn:E; lia.
  - destruct (c <=? Z.min z (2 ^ 53)) eqn:E; lia.
Qed.

Lemma update_key_generator_mono k c c' :
  update_key_generator k c = c -> c <= c' -> update_key_generator k c' = c'.
Proof.
  destruct k as [[]|z|]; simpl; try done.
  - destruct (c <=? 2 ^ 53) eqn:E; destruct (c' <=? 2 ^ 53) eqn:E'; lia.
  - destruct (c <=? Z.min z (2 ^ 53)) eqn:E;
      destruct (c' <=? Z.min z (2 ^ 53)) eqn:E'; lia.
Qed.

Lemma update_key_generator_idem k c :
  update_key_generator k (update_key_generator k c) = update_key_generator k c.
Proof.
  destruct k as [[]|z|]; simpl; try done.
  - destruct (c <=? 2 ^ 53) eqn:E; [|by rewrite E].
    destruct (2 ^ 53 + 1 <=? 2 ^ 53) eqn:E'; lia.
  - destruct (c <=? Z.min z (2 ^ 53)) eqn:E; [|by rewrite E].
    destruct (Z.min z (2 ^ 53) + 1 <=? Z.min z (2 ^ 53)) eqn:E'; lia.
Qed.

(** The key generator never hands out a key a stored record holds. *)
Lemma wf_db_fresh s :
  wf_db s -> current_number s <= 2 ^ 53 ->
  patients s !! KInt (current_number s) = None.
Proof.
  intros Hwf Hle. destruct (patients s !! KInt (current_number s)) as [q|] eqn:E;
    [|done].
  destruct (Hwf _ _ E) as [_ Hg]. simpl in Hg.
  destruct (current_number s <=? Z.min (current_number s) (2 ^ 53)) eqn:E'; lia.
Qed.

Lemma wf_createObjectStore : wf_db createObjectStore.
Proof. intros k p Hk. simpl in Hk. by rewrite lookup_empty in Hk. Qed.

Lemma wf_store_record no_overwrite v s k s' :
  wf_db s -> store_record no_overwrite v s = Success k s' -> wf_db s'.
Proof.
  intros Hwf. unfold store_record.
  destruct (evaluate_key_path v) as [x|] eqn:Ev.
  - destruct (convert_value_to_key x) as [k'|] eqn:Ek; [|done].
    destruct (no_overwrite && _); [done|].
    intros [= <- <-]. intros j q Hj. simpl in *.
    destruct (decide (k' = j)) as [->|Hne].
    + rewrite lookup_insert_eq in Hj. injection Hj as <-. split.
      * unfold evaluate_key_path in Ev. unfold get_prop. by rewrite Ev.
      * apply update_key_generator_idem.
    + rewrite lookup_insert_ne in Hj by done.
      destruct (Hwf _ _ Hj) as [Hid Hg]. split; [done|].
      eapply update_key_generator_mono; [exact Hg|].
      apply update_key_generator_ge.
  - destruct (2 ^ 53 <? current_number s) eqn:Elim; [done|].
    destruct (no_overwrite && _); [done|].
    intros [= <- <-]. intros j q Hj. simpl in *.
    destruct (decide (KInt (current_number s) = j)) as [<-|Hne].
    + rewrite lookup_insert_eq in Hj. injection Hj as <-. split.
      * unfold get_prop. by rewrite lookup_insert_eq.
      * simpl.
        destruct (current_number s + 1 <=? Z.min (current_number s) (2 ^ 53)) eqn:E';
          lia.
    + rewrite lookup_insert_ne in Hj by done.
      destruct (Hwf _ _ Hj) as [Hid Hg]. split; [done|].
      eapply update_key_generator_mono; [exact Hg|]. lia.
Qed.

Lemma store_record_current_number no_overwrite v s k s' :
  store_record no_overwrite v s = Success k s' ->
  current_number s <= current_number s'.
Proof.
  unfold store_record.
  destruct (evaluate_key_path v) as [x|].
  - destruct (convert_value_to_key x) as [k'|]; [|done].
    destruct (no_overwrite && _); [done|].
    intros [= <- <-]. simpl. apply update_key_generator_ge.
  - destruct (2 ^ 53 <? current_number s); [done|].
    destruct (no_overwrite && _); [done|].
    intros [= <- <-]. simpl. lia.
Qed.

Lemma wf_delete s k :
  wf_db s ->
  wf_db {| patients := delete k (patients s);
           current_number := current_number s |}.
Proof.
  intros Hwf j q Hj. simpl in *.
  apply lookup_delete_Some in Hj as [_ Hj]. exact (Hwf _ _ Hj).
Qed.

End store.

(** ** parseInt *)

Section parse.

Ltac by_cases_on c :=
  destruct c as [[] [] [] [] [] [] [] []]; vm_compute; congruence.

Lemma digit_not_white_space c :
  is_decimal_digit c = true -> is_white_space c = false.
Proof. by_cases_on c. Qed.

Lemma strip_sign_digit c s :
  is_decimal_digit c = true -> strip_sign (String c s) = (false, String c s).
Proof.
  intros Hc. unfold strip_sign.
  assert (Ascii.eqb c "-" = false /\ Ascii.eqb c "+" = false) as [-> ->];
    [|done].
  revert Hc. destruct c as [[] [] [] [] [] [] [] []]; vm_compute; intuition congruence.
Qed.

Lemma digit_value_decimal c :
  is_decimal_digit c = true -> digit_value 10 c = Some (code c - 48).
Proof. by_cases_on c. Qed.

Lemma digit_value_not_decimal c :
  is_decimal_digit c = false -> digit_value 10 c = None.
Proof. by_cases_on c. Qed.

Lemma leading_digits_stop rest :
  starts_with_digit rest = false -> leading_digits 10 rest = [].
Proof.
  destruct rest as [|c rest]; [done|]. simpl. intros Hc.
  by rewrite digit_value_not_decimal.
Qed.

(** Reading the digits of a decimal prefix gives the integer it denotes. *)
Lemma leading_digits_value ds rest acc :
  all_decimal_digits ds = true -> starts_with_digit rest = false ->
  fold_left (fun a d => a * 10 + d) (leading_digits 10 (ds +:+ rest)) acc
  = decimal_value_from acc ds.
Proof.
  intros Hds Hrest. revert acc Hds.
  induction ds as [|c ds IH]; intros acc Hds.
  - rewrite append_nil, leading_digits_stop by done. reflexivity.
  - simpl in Hds. apply andb_true_iff in Hds as [Hc Hds].
    rewrite append_cons. simpl. rewrite digit_value_decimal by done. simpl.
    rewrite IH by done. f_equal. lia.
Qed.

Lemma strip_prefix_decimal s :
  has_hex_prefix s = false -> strip_prefix s = (10, s).
Proof.
  intros Hs. unfold strip_prefix.
  destruct s as [|c [|x r]]; [done..|]. by rewrite Hs.
Qed.

(** On a term that starts with decimal digits and goes on with something
    else, [parseInt] is the Number value of the leading integer, unless
    the term starts with [0x] or [0X]. *)
Lemma parseInt_decimal_prefix ds rest :
  ds <> EmptyString -> all_decimal_digits ds = true -> starts_with_digit rest = false ->
  has_hex_prefix (ds +:+ rest) = false ->
  parseInt (ds +:+ rest) = number_of_Z (decimal_value ds).
Proof.
  intros Hne Hds Hrest Hhex.
  pose proof (leading_digits_value ds rest 0 Hds Hrest) as Hval.
  destruct ds as [|c ds]; [done|].
  simpl in Hds. apply andb_true_iff in Hds as [Hc Hds].
  unfold parseInt. rewrite append_cons in *.
  simpl trim_start. rewrite digit_not_white_space by done.
  rewrite strip_sign_digit by done.
  rewrite strip_prefix_decimal by done.
  simpl leading_digits in *. rewrite digit_value_decimal in * by done.
  unfold digits_value. by rewrite Hval.
Qed.

Lemma trim_start_white_space s :
  all_white_space s = true -> trim_start s = EmptyString.
Proof.
  induction s as [|c s IH]; [done|]. simpl.
  intros [-> Hs]%andb_true_iff. auto.
Qed.

Lemma all_white_space_toLowerCase s :
  all_white_space (toLowerCase s) = all_white_space s.
Proof.
  induction s as [|c s IH]; [done|]. simpl.
  by rewrite is_white_space_lower_char, IH.
Qed.

Lemma trim_white_space s : all_white_space s = true -> trim s = EmptyString.
Proof. intros Hs. unfold trim. by rewrite trim_start_white_space. Qed.

Lemma parseInt_white_space s : all_white_space s = true -> parseInt s = NaN.
Proof. intros Hs. unfold parseInt. by rewrite trim_start_white_space. Qed.

Lemma number_of_Z_not_NaN z : number_of_Z z <> NaN.
Proof.
  unfold number_of_Z. destruct (Z.abs z <? 2 ^ 53); [done|].
  cbv zeta. by destruct (2 ^ 1024 <=? _).
Qed.

End parse.

(** ** searchPatients *)

Section search.

Implicit Types (s : IDBDatabase) (h : PatientDatabase) (p : object).

Lemma filter_throwing_total {A} (f : A -> option bool) (g : A -> bool) l :
  (forall x, x ∈ l -> f x = Some (g x)) ->
  filter_throwing f l = Some (List.filter g l).
Proof.
  induction l as [|x l IH]; intros Hf; [done|]. simpl.
  rewrite (Hf x) by left.
  rewrite IH by (intros y Hy; apply Hf; by right).
  by destruct (g x).
Qed.

Lemma name_is_string_get_prop p :
  name_is_string p = true -> exists name, p !! "name" = Some (VStr name).
Proof.
  unfold name_is_string. destruct (p !! "name") as [[]|]; try done. eauto.
Qed.

Lemma search_filter_keep n t p :
  name_is_string p = true -> search_filter n t p = Some (search_keep n t p).
Proof.
  intros [name Hn]%name_is_string_get_prop.
  unfold search_filter, search_keep, get_prop. rewrite Hn. simpl.
  destruct (negb (isNaN n) && _); [done|]. simpl.
  by destruct (includes _ _).
Qed.

(** When every stored name is a string the filter callback never throws
    and the promise resolves with the filtered [getAll]. *)
Lemma searchPatients_resolves h s term :
  db h = Some s -> names_are_strings s ->
  searchPatients term h
  = Resolved (List.filter (search_keep (parseInt term) (trim (toLowerCase term)))
                          (getAll s)).
Proof.
  intros Hdb Hnames. unfold searchPatients. rewrite Hdb.
  erewrite filter_throwing_total; [done|].
  intros p [k Hk]%elem_of_getAll. apply search_filter_keep.
  exact (Hnames _ _ Hk).
Qed.

Lemma strict_eq_number v n :
  strict_eq v (VNum n) = true <-> v = VNum n /\ n <> NaN.
Proof.
  destruct v as [| |b|m|t|d]; simpl; try (split; [done | by intros [? ?]]).
  destruct m as [|a|a], n as [|b|b]; simpl;
    try (split; [done | intros [? ?]; congruence]).
  - split; [intros ->%Bool.eqb_prop; done | intros [[= ->] _]].
    by destruct b.
  - rewrite Z.eqb_eq. split; [by intros -> | by intros [[= ->] _]].
Qed.

Lemma get_prop_Some p f v :
  v <> VUndefined -> get_prop p f = v <-> p !! f = Some v.
Proof.
  unfold get_prop. destruct (p !! f); simpl; split; congruence.
Qed.

Lemma search_keep_spec term p :
  search_keep (parseInt term) (trim (toLowerCase term)) p = true
  <-> id_matches term p \/ name_matches term p.
Proof.
  unfold search_keep, id_matches, name_matches.
  rewrite orb_true_iff, andb_true_iff, strict_eq_number, <- toLowerCase_trim.
  rewrite get_prop_Some by done. split.
  - intros [[_ [Hid Hn]] | Hname]; [by left | right].
    destruct (get_prop p "name") as [| | | |name|] eqn:E; try done.
    apply get_prop_Some in E; [|done].
    apply includes_spec in Hname as [pre [post Hpp]]. by exists name, pre, post.
  - intros [[Hn Hid] | [name [pre [post [Hname Hpp]]]]].
    + left. split; [|done]. by destruct (parseInt term).
    + right. apply get_prop_Some in Hname; [|done]. rewrite Hname.
      apply includes_spec. eauto.
Qed.

Lemma elem_of_filter_keep s term p :
  p ∈ List.filter (search_keep (parseInt term) (trim (toLowerCase term))) (getAll s)
  <-> p ∈ getAll s /\ (id_matches term p \/ name_matches term p).
Proof.
  rewrite !list_elem_of_In, filter_In, search_keep_spec. reflexivity.
Qed.

End search.

(** * The claims *)

Section claims.

Implicit Types (s : IDBDatabase) (h : PatientDatabase) (p : object) (k : key).

(** Decidable facts about a concrete store are settled by evaluation. *)
Ltac decide_by_computation :=
  apply (bool_decide_unpack _); vm_compute; exact I.

Lemma convert_key_value k : convert_value_to_key (key_value k) = Some k.
Proof. by destruct k. Qed.

Lemma key_value_convert x k : convert_value_to_key x = Some k -> key_value k = x.
Proof. destruct x as [| | |[| |]| |]; simpl; try done; by intros [= <-]. Qed.

Lemma evaluate_key_path_Some v x :
  v !! "id" = Some x -> evaluate_key_path v = Some x.
Proof. done. Qed.

Lemma evaluate_key_path_None v :
  v !! "id" = None -> evaluate_key_path v = None.
Proof. done. Qed.

Lemma evaluate_key_path_createdAt now (v : object) :
  evaluate_key_path (<["createdAt" := VStr now]> v) = evaluate_key_path v.
Proof. unfold evaluate_key_path. by rewrite lookup_insert_ne. Qed.

Lemma wf_db_id s k p :
  wf_db s -> patients s !! k = Some p ->
  exists x, p !! "id" = Some x /\ x <> VUndefined /\ convert_value_to_key x = Some k.
Proof.
  intros Hwf Hk. pose proof (wf_db_key _ _ _ Hwf Hk) as Hid.
  unfold get_prop in Hid. destruct (p !! "id") as [x|]; [|done].
  exists x. split; [done|]. split; [|done]. by intros ->.
Qed.

(** Scenario A of the specification: the first insert gets id 1. *)
Example scenario_A :
  init (Opened None) constructor = (Resolved createObjectStore, fresh) /\
  addPatient iso_2024 bob fresh = (Resolved (VNum (Int 1)), bob_handle) /\
  getAllPatients bob_handle = Resolved [stored 1 iso_2024 bob].
Proof. repeat split; vm_compute; reflexivity. Qed.

(** *** C3: calls on a handle that was never opened *)

(** C3 (as the code has it).  While [this.db] is still [null], each of
    [addPatient], [getAllPatients], [getPatientById], [searchPatients],
    [updatePatient] and [deletePatient] rejects at once with the
    [TypeError] of reading [transaction] off [null], and leaves the
    handle as it was.  The class has no error of its own for this case. *)
Theorem C3_unopened_rejects_with_TypeError h :
  db h = None ->
  (forall now patientData,
      addPatient now patientData h = (Rejected TypeError, h)) /\
  getAllPatients h = Rejected TypeError /\
  (forall id, getPatientById id h = Rejected TypeError) /\
  (forall term, searchPatients term h = Rejected TypeError) /\
  (forall id updates, updatePatient id updates h = (Rejected TypeError, h)) /\
  (forall id, deletePatient id h = (Rejected TypeError, h)).
Proof.
  intros Hdb.
  unfold addPatient, getAllPatients, getPatientById, searchPatients,
    updatePatient, deletePatient.
  rewrite Hdb. repeat split.
Qed.

Lemma C3_unopened_witness :
  db constructor = None /\
  addPatient iso_2024 bob constructor = (Rejected TypeError, constructor) /\
  searchPatients "Bob" constructor = Rejected TypeError.
Proof.
  split; [reflexivity|].
  destruct (C3_unopened_rejects_with_TypeError constructor eq_refl)
    as (Hadd & _ & _ & Hsearch & _).
  split; [apply Hadd | apply Hsearch].
Defined.

(** C3 as stated fails: on the handle [new PatientDatabase()] leaves
    behind, [addPatient] rejects with an error named [TypeError], not
    [NotInitialized]. *)
Lemma C3_not_a_NotInitialized_error :
  exists e,
    (addPatient iso_2024 bob constructor).1 = Rejected e /\
    error_name e = "TypeError" /\
    error_name e <> "NotInitialized".
Proof. exists TypeError. repeat split. discriminate. Qed.

(** *** C7: update of an absent id *)

(** C7.  When no record has the key [id], [updatePatient(id, updates)]
    rejects with [Error("Patient not found")] and the handle, hence the
    store, is unchanged. *)
Theorem C7_update_absent_rejects_not_found h s id k updates :
  db h = Some s ->
  convert_value_to_key id = Some k ->
  patients s !! k = None ->
  updatePatient id updates h = (Rejected (Error "Patient not found"), h).
Proof.
  intros Hdb Hk Habs. unfold updatePatient. by rewrite Hdb, Hk, Habs.
Qed.

Lemma C7_update_absent_witness :
  updatePatient (VNum (Int 999)) {[ "age" := VNum (Int 46) ]} bob_handle
  = (Rejected (Error "Patient not found"), bob_handle).
Proof.
  apply (C7_update_absent_rejects_not_found bob_handle bob_store _ (KInt 999));
    reflexivity.
Defined.

(** *** C8: getById of an absent id *)

(** C8 (as the code has it).  On an opened handle, for an [id] that is a
    valid key (a number other than [NaN], or a string) and that no record
    has, [getPatientById(id)] resolves, with [undefined]; it does not
    reject.  (That no record has the id is said of the key, and, for a
    store in a reachable state, of the records [getAll] lists.)  For an
    [id] that is not a valid key ([undefined], [null], a
    boolean, [NaN], a blob) it rejects with a [DataError], on the empty
    store as on any other. *)
Theorem C8_getById_absent_resolves_empty h s id :
  db h = Some s ->
  (forall k, convert_value_to_key id = Some k ->
             patients s !! k = None ->
             getPatientById id h = Resolved None) /\
  (wf_db s ->
   is_Some (convert_value_to_key id) ->
   (forall p, p ∈ getAll s -> p !! "id" <> Some id) ->
   getPatientById id h = Resolved None) /\
  (id = VUndefined \/ id = VNull \/ (exists b, id = VBool b) \/
   id = VNum NaN \/ (exists data, id = VBlob data) ->
   getPatientById id h = Rejected (DOMException DataError)).
Proof.
  intros Hdb.
  assert (forall k, convert_value_to_key id = Some k ->
                    (forall p, p ∈ getAll s -> p !! "id" <> Some id) ->
                    wf_db s -> patients s !! k = None) as Habsent.
  { intros k Hk Hno Hwf. destruct (patients s !! k) as [p|] eqn:E; [|done].
    destruct (wf_db_id _ _ _ Hwf E) as (x & Hx & _ & Hconv).
    destruct (Hno p); [apply elem_of_getAll; eauto|].
    rewrite Hx. f_equal.
    by rewrite <- (key_value_convert _ _ Hconv), <- (key_value_convert _ _ Hk). }
  unfold getPatientById. rewrite Hdb. split; [|split].
  - intros k Hk Habs. by rewrite Hk, Habs.
  - intros Hwf [k Hk] Hno. by rewrite Hk, (Habsent k).
  - intros [->|[->|[[b ->]|[->|[data ->]]]]]; reflexivity.
Qed.

(** Scenario C: id 999 on an empty store; and [null] on the same. *)
Lemma C8_getById_empty_store_witness :
  getPatientById (VNum (Int 999)) fresh = Resolved None /\
  getPatientById VNull fresh = Rejected (DOMException DataError).
Proof.
  split.
  - destruct (C8_getById_absent_resolves_empty fresh createObjectStore
                (VNum (Int 999)) eq_refl) as (Habsent & _).
    apply (Habsent (KInt 999)); reflexivity.
  - destruct (C8_getById_absent_resolves_empty fresh createObjectStore
                VNull eq_refl) as (_ & _ & Hbad).
    apply Hbad. right. by left.
Defined.

(** C8 as stated fails: no record of the empty store has the id [null],
    [undefined], [true] or [NaN], yet [getPatientById] of each rejects,
    with an error named [DataError]. *)
Lemma C8_an_id_that_is_no_key_rejects :
  getAllPatients fresh = Resolved [] /\
  getPatientById VNull fresh = Rejected (DOMException DataError) /\
  getPatientById VUndefined fresh = Rejected (DOMException DataError) /\
  getPatientById (VBool true) fresh = Rejected (DOMException DataError) /\
  getPatientById (VNum NaN) fresh = Rejected (DOMException DataError) /\
  error_name (DOMException DataError) = "DataError".
Proof. repeat split. Qed.

(** *** C1: what update merges *)

(** C1 (as the code has it).  For a stored record [R] under key [k]:
    whenever [updatePatient] resolves, its result is the shallow merge in
    which every key of [updates] takes the value from [updates], [id] and
    [createdAt] included, and every other key keeps [R]'s value; and when
    [updates] holds no [id], or [R]'s own, the call does resolve, [id]
    keeps [R]'s value, the merge replaces [R] under [k] and no other
    record changes.  [createdAt] is a key like any other: it keeps [R]'s
    value unless [updates] brings one. *)
Theorem C1_update_merges_every_supplied_key h s k R updates :
  db h = Some s ->
  wf_db s ->
  patients s !! k = Some R ->
  (forall merged h',
      updatePatient (key_value k) updates h = (Resolved merged, h') ->
      forall f, merged !! f = match updates !! f with
                              | Some v => Some v
                              | None => R !! f
                              end) /\
  (updates !! "id" = None \/ updates !! "id" = R !! "id" ->
   exists h',
     updatePatient (key_value k) updates h = (Resolved (spread R updates), h') /\
     spread R updates !! "id" = R !! "id" /\
     spread R updates !! "createdAt"
     = match updates !! "createdAt" with
       | Some v => Some v
       | None => R !! "createdAt"
       end /\
     getPatientById (key_value k) h' = Resolved (Some (spread R updates)) /\
     forall j, j <> k ->
               getPatientById (key_value j) h' = getPatientById (key_value j) h).
Proof.
  intros Hdb Hwf HR.
  assert (forall f, spread R updates !! f = match updates !! f with
                                            | Some v => Some v
                                            | None => R !! f
                                            end) as Hmerge.
  { intros f. unfold spread. destruct (updates !! f) as [v|] eqn:E.
    - by apply lookup_union_Some_l.
    - by apply lookup_union_r. }
  split.
  - intros merged h'. unfold updatePatient.
    rewrite Hdb, convert_key_value, HR.
    destruct (put _ s) as [k' s'| |]; [|done..].
    intros [= <- _] f. apply Hmerge.
  - intros Hid.
    destruct (wf_db_id _ _ _ Hwf HR) as (x & Hx & _ & Hconv).
    assert (spread R updates !! "id" = R !! "id") as Hmid.
    { rewrite Hmerge. destruct Hid as [-> | ->]; [done|]. by rewrite Hx. }
    assert (put (spread R updates) s
            = Success k {| patients := <[k := spread R updates]> (patients s);
                           current_number := current_number s |}) as Hput.
    { unfold put, store_record.
      rewrite (evaluate_key_path_Some _ x) by congruence.
      rewrite Hconv. simpl. by destruct (Hwf _ _ HR) as [_ ->]. }
    eexists. unfold updatePatient.
    rewrite Hdb, convert_key_value, HR, Hput.
    split; [reflexivity|]. split; [done|].
    split; [apply Hmerge|].
    unfold getPatientById. simpl. rewrite Hdb, !convert_key_value. simpl.
    split; [by rewrite lookup_insert_eq|].
    intros j Hj. rewrite convert_key_value. by rewrite lookup_insert_ne.
Qed.

(** Scenario D and property P3 without the identity keys: [notes]
    changes, [id] and [createdAt] stay. *)
Lemma C1_update_notes_witness :
  exists h',
    updatePatient (VNum (Int 1)) {[ "notes" := VStr "x" ]} bob_handle
    = (Resolved (spread (stored 1 iso_2024 bob) {[ "notes" := VStr "x" ]}), h') /\
    spread (stored 1 iso_2024 bob) {[ "notes" := VStr "x" ]} !! "id"
    = Some (VNum (Int 1)) /\
    spread (stored 1 iso_2024 bob) {[ "notes" := VStr "x" ]} !! "createdAt"
    = Some (VStr iso_2024).
Proof.
  assert (wf_db bob_store) as Hwf
      by decide_by_computation.
  destruct (C1_update_merges_every_supplied_key bob_handle bob_store (KInt 1)
              (stored 1 iso_2024 bob) {[ "notes" := VStr "x" ]}
              eq_refl Hwf eq_refl) as [_ Hkeep].
  destruct (Hkeep (or_introl eq_refl)) as (h' & Hres & Hid & Hcreated & _).
  exists h'. split; [exact Hres|]. split; [exact Hid | exact Hcreated].
Defined.

(** C1 as stated fails: with [{notes: "x", id: 999, createdAt: "bogus"}]
    the result carries id 999 and createdAt "bogus"; it is stored as a
    second record under 999 while the record under 1 stays as it was. *)
Lemma C1_identity_keys_are_overwritten :
  let R := stored 1 iso_2024 bob in
  let updates : object :=
    {[ "notes" := VStr "x"; "id" := VNum (Int 999);
       "createdAt" := VStr "bogus" ]} in
  exists merged h',
    getPatientById (VNum (Int 1)) bob_handle = Resolved (Some R) /\
    updatePatient (VNum (Int 1)) updates bob_handle = (Resolved merged, h') /\
    merged !! "id" = Some (VNum (Int 999)) /\
    merged !! "id" <> R !! "id" /\
    merged !! "createdAt" = Some (VStr "bogus") /\
    merged !! "createdAt" <> R !! "createdAt" /\
    getPatientById (VNum (Int 999)) h' = Resolved (Some merged) /\
    getPatientById (VNum (Int 1)) h' = Resolved (Some R).
Proof.
  intros R updates. eexists _, _.
  split; [vm_compute; reflexivity|].
  split; [reflexivity|].
  repeat split; try (vm_compute; reflexivity); vm_compute; discriminate.
Qed.

(** *** C2: what insert does with a caller's id and createdAt *)

(** A record that was stored sits under the key the request reports and
    agrees with the value given on every property but [id]. *)
Lemma store_record_lookup no_overwrite v s k s' :
  store_record no_overwrite v s = Success k s' ->
  exists rec, patients s' !! k = Some rec /\
              forall f, f <> "id" -> rec !! f = v !! f.
Proof.
  unfold store_record.
  destruct (evaluate_key_path v) as [x|].
  - destruct (convert_value_to_key x) as [k'|]; [|done].
    destruct (no_overwrite && _); [done|].
    intros [= <- <-]. simpl. exists v. by rewrite lookup_insert_eq.
  - destruct (2 ^ 53 <? current_number s); [done|].
    destruct (no_overwrite && _); [done|].
    intros [= <- <-]. simpl. eexists. rewrite lookup_insert_eq.
    split; [done|]. intros f Hf. by rewrite lookup_insert_ne.
Qed.

(** [add] never replaces a record. *)
Lemma add_was_absent v s k s' :
  add v s = Success k s' -> patients s !! k = None.
Proof.
  unfold add, store_record.
  destruct (evaluate_key_path v) as [x|].
  - destruct (convert_value_to_key x) as [k'|]; [|done].
    destruct (bool_decide _) eqn:E; [done|]. simpl.
    intros [= <- <-]. apply bool_decide_eq_false in E.
    destruct (patients s !! k') eqn:E'; [|done]. destruct E. eauto.
  - destruct (2 ^ 53 <? current_number s); [done|].
    destruct (bool_decide _) eqn:E; [done|]. simpl.
    intros [= <- <-]. apply bool_decide_eq_false in E.
    destruct (patients s !! KInt (current_number s)) eqn:E'; [|done].
    destruct E. eauto.
Qed.

(** C2 (as the code has it).  On an opened handle:
    (a) whenever [addPatient] resolves, the record stored under the
    returned id has [createdAt] equal to the time of the call, whatever
    the candidate carried;
    (b) when the candidate has no [id] property and the key generator is
    not exhausted (its current number is at most 2^53), the call
    resolves with the generator's current number and stores the
    candidate with that [id];
    (c) when the candidate carries an [id] that is a valid key not yet
    in the store, the call resolves with that very id and stores the
    candidate under it;
    (d) when the candidate carries an [id] that is not a valid key
    ([undefined], [null], a boolean, [NaN]), the call rejects with a
    [DataError] and stores nothing. *)
Theorem C2_insert_overwrites_createdAt_not_id h s now patientData :
  db h = Some s ->
  wf_db s ->
  (forall r h',
      addPatient now patientData h = (Resolved r, h') ->
      exists rec, getPatientById r h' = Resolved (Some rec) /\
                  rec !! "createdAt" = Some (VStr now)) /\
  (patientData !! "id" = None -> current_number s <= 2 ^ 53 ->
   exists h',
     addPatient now patientData h
     = (Resolved (VNum (Int (current_number s))), h') /\
     getPatientById (VNum (Int (current_number s))) h'
     = Resolved (Some (stored (current_number s) now patientData))) /\
  (forall x k,
      patientData !! "id" = Some x ->
      convert_value_to_key x = Some k ->
      patients s !! k = None ->
      exists h',
        addPatient now patientData h = (Resolved x, h') /\
        getPatientById x h'
        = Resolved (Some (<["createdAt" := VStr now]> patientData))) /\
  (forall x,
      patientData !! "id" = Some x ->
      convert_value_to_key x = None ->
      addPatient now patientData h = (Rejected (DOMException DataError), h)).
Proof.
  intros Hdb Hwf. split; [|split; [|split]].
  - intros r h'. unfold addPatient. rewrite Hdb.
    destruct (add _ s) as [k s'| |] eqn:Hadd; [|done..].
    intros [= <- <-].
    apply store_record_lookup in Hadd as (rec & Hrec & Hsame).
    exists rec. unfold getPatientById. simpl. rewrite convert_key_value.
    split; [by rewrite Hrec|].
    rewrite Hsame by done. by rewrite lookup_insert_eq.
  - intros Hnone Hle. eexists. unfold addPatient, add, store_record.
    rewrite Hdb, evaluate_key_path_createdAt, (evaluate_key_path_None _ Hnone).
    destruct (2 ^ 53 <? current_number s) eqn:E; [lia|].
    rewrite wf_db_fresh by done.
    rewrite bool_decide_eq_false_2 by (by intros [? ?]).
    simpl. split; [reflexivity|].
    unfold getPatientById. simpl. by rewrite lookup_insert_eq.
  - intros x k Hx Hk Habs. eexists. unfold addPatient, add, store_record.
    rewrite Hdb, evaluate_key_path_createdAt.
    rewrite (evaluate_key_path_Some _ x) by done.
    rewrite Hk, Habs.
    rewrite bool_decide_eq_false_2 by (by intros [? ?]).
    simpl. rewrite (key_value_convert _ _ Hk). split; [reflexivity|].
    unfold getPatientById. simpl. rewrite Hk. by rewrite lookup_insert_eq.
  - intros x Hx Hk. unfold addPatient, add, store_record.
    rewrite Hdb, evaluate_key_path_createdAt.
    rewrite (evaluate_key_path_Some _ x) by done. by rewrite Hk.
Qed.

Lemma C2_insert_witness :
  (exists h',
      addPatient iso_2024 bob fresh = (Resolved (VNum (Int 1)), h') /\
      getPatientById (VNum (Int 1)) h'
      = Resolved (Some (stored 1 iso_2024 bob))) /\
  addPatient iso_2024 (<["id" := VUndefined]> bob) fresh
  = (Rejected (DOMException DataError), fresh).
Proof.
  assert (wf_db createObjectStore) as Hwf
      by decide_by_computation.
  split.
  - destruct (C2_insert_overwrites_createdAt_not_id fresh createObjectStore
                iso_2024 bob eq_refl Hwf) as (_ & Hgen & _).
    apply Hgen; [reflexivity | vm_compute; discriminate].
  - destruct (C2_insert_overwrites_createdAt_not_id fresh createObjectStore
                iso_2024 (<["id" := VUndefined]> bob) eq_refl Hwf)
      as (_ & _ & _ & Hbad).
    apply (Hbad VUndefined); reflexivity.
Defined.

(** C2 as stated fails for [id]: a candidate that carries id 42 (and a
    createdAt of its own) is stored under 42 although the key generator
    of the fresh store stands at 1; only its createdAt is replaced. *)
Lemma C2_caller_supplied_id_is_kept :
  let candidate : object :=
    <["id" := VNum (Int 42)]> (<["createdAt" := VStr "bogus"]> bob) in
  exists h' rec,
    current_number createObjectStore = 1 /\
    addPatient iso_2024 candidate fresh = (Resolved (VNum (Int 42)), h') /\
    getPatientById (VNum (Int 42)) h' = Resolved (Some rec) /\
    rec !! "id" = Some (VNum (Int 42)) /\
    rec !! "createdAt" = Some (VStr iso_2024) /\
    getPatientById (VNum (Int 1)) h' = Resolved None.
Proof.
  intros candidate. eexists _, _.
  split; [reflexivity|].
  split; [vm_compute; reflexivity|].
  split; [reflexivity|].
  repeat split; vm_compute; reflexivity.
Qed.

(** *** C4: search is the union of the id match and the name match *)

Lemma parseInt_7 : parseInt "7" = Int 7.
Proof. reflexivity. Qed.

(** C4.  In a store whose records all have a string for a name, for
    every term [searchPatients] resolves with a duplicate-free list that
    holds exactly the stored records whose id equals the number the term
    parses to or whose lower-cased name contains the lower-cased trimmed
    term.  In particular, with a record of id 7 named "Jon" and a record
    named "7-Eleven", the search for "7" returns both, each once. *)
Theorem C4_search_is_union_of_id_and_name_matches h s :
  db h = Some s ->
  wf_db s ->
  names_are_strings s ->
  (forall term,
      exists found,
        searchPatients term h = Resolved found /\
        NoDup found /\
        forall p, p ∈ found <->
                  p ∈ getAll s /\ (id_matches term p \/ name_matches term p)) /\
  (forall k7 k p7 p,
      patients s !! k7 = Some p7 ->
      p7 !! "id" = Some (VNum (Int 7)) ->
      p7 !! "name" = Some (VStr "Jon") ->
      patients s !! k = Some p ->
      p !! "name" = Some (VStr "7-Eleven") ->
      exists found,
        searchPatients "7" h = Resolved found /\
        NoDup found /\ p7 ∈ found /\ p ∈ found).
Proof.
  intros Hdb Hwf Hnames.
  assert (forall term, NoDup (List.filter
            (search_keep (parseInt term) (trim (toLowerCase term))) (getAll s)))
    as Hnodup
      by (intros term;
          apply NoDup_ListNoDup, List.NoDup_filter, NoDup_ListNoDup, NoDup_getAll, Hwf).
  split.
  - intros term. eexists. split; [by apply searchPatients_resolves|].
    split; [apply Hnodup|]. intros p. apply elem_of_filter_keep.
  - intros k7 k p7 p Hk7 Hid7 Hname7 Hk Hname. eexists.
    split; [by apply searchPatients_resolves|].
    split; [apply Hnodup|]. rewrite !elem_of_filter_keep, !elem_of_getAll.
    split.
    + split; [by exists k7|]. left. split; [by rewrite parseInt_7|].
      by rewrite parseInt_7.
    + split; [by exists k|]. right. exists "7-Eleven", EmptyString, "-eleven".
      split; [done | reflexivity].
Qed.

(** Property P5 on the store that holds Jon (id 7) and the 7-Eleven. *)
Lemma C4_search_7_witness :
  exists found,
    searchPatients "7" shop_handle = Resolved found /\
    NoDup found /\ jon ∈ found /\ eleven ∈ found.
Proof.
  assert (wf_db shop_store) as Hwf
      by decide_by_computation.
  assert (names_are_strings shop_store) as Hnames
      by decide_by_computation.
  destruct (C4_search_is_union_of_id_and_name_matches shop_handle shop_store
              eq_refl Hwf Hnames) as [_ Hboth].
  apply (Hboth (KInt 7) (KInt 8)); reflexivity.
Defined.

(** *** C6: the name match ignores case *)

Lemma name_matches_includes term p name :
  p !! "name" = Some (VStr name) ->
  name_matches term p
  <-> includes (toLowerCase name) (toLowerCase (trim term)) = true.
Proof.
  intros Hname. unfold name_matches. rewrite includes_spec. split.
  - intros (name' & pre & post & Hname' & Hsub).
    assert (name' = name) as -> by congruence. eauto.
  - intros (pre & post & Hsub). eauto.
Qed.

(** C6.  In a store whose records all have a string for a name, for
    every term [searchPatients] resolves with stored records only, and a
    stored record that the term does not match by id is among them
    exactly when the trimmed lower-case form of the term occurs in the
    record's lower-cased name.  So a record is found by every term whose
    trimmed lower-case form occurs in its lower-cased name, two terms
    without a number in front that differ in case only find the same
    records, and a record named "Alice Smith" is found by "ALICE" and by
    "lice sm". *)
Theorem C6_search_by_name_ignores_case h s :
  db h = Some s ->
  names_are_strings s ->
  (forall term,
      exists found,
        searchPatients term h = Resolved found /\
        (forall p, p ∈ found -> p ∈ getAll s) /\
        (forall p, p ∈ getAll s -> ~ id_matches term p ->
                   (p ∈ found <-> name_matches term p))) /\
  (forall term k p name pre post,
      patients s !! k = Some p ->
      p !! "name" = Some (VStr name) ->
      toLowerCase name = pre +:+ toLowerCase (trim term) +:+ post ->
      exists found, searchPatients term h = Resolved found /\ p ∈ found) /\
  (forall term term',
      parseInt term = NaN -> parseInt term' = NaN ->
      toLowerCase (trim term) = toLowerCase (trim term') ->
      searchPatients term h = searchPatients term' h) /\
  (forall k p,
      patients s !! k = Some p ->
      p !! "name" = Some (VStr "Alice Smith") ->
      (exists found, searchPatients "ALICE" h = Resolved found /\ p ∈ found) /\
      (exists found, searchPatients "lice sm" h = Resolved found /\ p ∈ found)).
Proof.
  intros Hdb Hnames.
  assert (forall term k p name pre post,
             patients s !! k = Some p ->
             p !! "name" = Some (VStr name) ->
             toLowerCase name = pre +:+ toLowerCase (trim term) +:+ post ->
             exists found, searchPatients term h = Resolved found /\ p ∈ found)
    as Hgen.
  { intros term k p name pre post Hk Hname Hsub. eexists.
    split; [by apply searchPatients_resolves|].
    rewrite elem_of_filter_keep, elem_of_getAll.
    split; [by exists k|]. right. by exists name, pre, post. }
  split; [|split; [exact Hgen|split]].
  - intros term. eexists. split; [by apply searchPatients_resolves|]. split.
    + intros p. rewrite elem_of_filter_keep. by intros [? _].
    + intros p Hin Hid. rewrite elem_of_filter_keep. split.
      * intros [_ [?|?]]; done.
      * intros ?. split; [done | by right].
  - intros term term' Hnan Hnan' Heq.
    rewrite !(searchPatients_resolves h s) by done.
    by rewrite Hnan, Hnan', <- !toLowerCase_trim, Heq.
  - intros k p Hk Hname. split.
    + by apply (Hgen "ALICE" k p "Alice Smith" EmptyString " smith").
    + by apply (Hgen "lice sm" k p "Alice Smith" "a" "ith").
Qed.

(** Property P6 on the store that holds Alice Smith; a term that does
    not occur in her name does not find her. *)
Lemma C6_search_alice_witness :
  (exists found, searchPatients "ALICE" alice_handle = Resolved found /\
                 alice ∈ found) /\
  (exists found, searchPatients "lice sm" alice_handle = Resolved found /\
                 alice ∈ found) /\
  (exists found, searchPatients "zzz" alice_handle = Resolved found /\
                 alice ∉ found).
Proof.
  assert (names_are_strings alice_store) as Hnames
      by decide_by_computation.
  destruct (C6_search_by_name_ignores_case alice_handle alice_store
              eq_refl Hnames) as (Hexact & _ & _ & Halice).
  destruct (Halice (KInt 1) alice eq_refl eq_refl) as [Hupper Hinner].
  split; [exact Hupper|]. split; [exact Hinner|].
  destruct (Hexact "zzz") as (found & Hres & _ & Hiff).
  exists found. split; [exact Hres|].
  rewrite (Hiff alice).
  - rewrite (name_matches_includes "zzz" alice "Alice Smith" eq_refl).
    vm_compute. discriminate.
  - apply elem_of_getAll. by exists (KInt 1).
  - intros [Hnan _]. by apply Hnan.
Defined.

(** *** C9: a blank term *)

Lemma filter_all {A} (f : A -> bool) l :
  (forall x, x ∈ l -> f x = true) -> List.filter f l = l.
Proof.
  induction l as [|x l IH]; intros Hf; [done|]. simpl.
  rewrite (Hf x) by left. f_equal. apply IH. intros y Hy. apply Hf. by right.
Qed.

(** C9.  In a store whose records all have a string for a name, a term
    that is empty or made of white space only finds every record:
    [searchPatients] resolves with what [getAll] returns. *)
Theorem C9_blank_term_finds_every_record h s term :
  db h = Some s ->
  names_are_strings s ->
  all_white_space term = true ->
  searchPatients term h = Resolved (getAll s) /\
  searchPatients term h = getAllPatients h.
Proof.
  intros Hdb Hnames Hblank.
  assert (searchPatients term h = Resolved (getAll s)) as Hres.
  { rewrite (searchPatients_resolves h s) by done. f_equal.
    apply filter_all. intros p [k Hk]%elem_of_getAll.
    destruct (name_is_string_get_prop p (Hnames _ _ Hk)) as [name Hname].
    unfold search_keep, get_prop. rewrite Hname. simpl.
    rewrite trim_white_space by (by rewrite all_white_space_toLowerCase).
    rewrite includes_empty. apply orb_true_r. }
  split; [exact Hres|]. unfold getAllPatients. by rewrite Hdb.
Qed.

Lemma C9_blank_term_witness :
  searchPatients "   " shop_handle = Resolved (getAll shop_store) /\
  searchPatients EmptyString shop_handle = Resolved (getAll shop_store).
Proof.
  assert (names_are_strings shop_store) as Hnames
      by decide_by_computation.
  split.
  - apply (C9_blank_term_finds_every_record shop_handle shop_store "   "
             eq_refl Hnames eq_refl).
  - apply (C9_blank_term_finds_every_record shop_handle shop_store EmptyString
             eq_refl Hnames eq_refl).
Defined.

(** *** C10: a term that starts with digits *)

(** C10 (as the code has it).  In a store whose records all have a
    string for a name, a term made of decimal digits followed by
    something that is not a digit, and not starting with [0x] or [0X],
    finds the record whose id is the integer the digits denote.  (The id
    is a JavaScript number, so the integer is the value of a double.) *)
Theorem C10_search_finds_id_of_decimal_prefix h s ds rest k p :
  db h = Some s ->
  names_are_strings s ->
  ds <> EmptyString ->
  all_decimal_digits ds = true ->
  starts_with_digit rest = false ->
  has_hex_prefix (ds +:+ rest) = false ->
  patients s !! k = Some p ->
  p !! "id" = Some (VNum (Int (decimal_value ds))) ->
  representable (decimal_value ds) ->
  exists found, searchPatients (ds +:+ rest) h = Resolved found /\ p ∈ found.
Proof.
  intros Hdb Hnames Hne Hds Hrest Hhex Hk Hid Hrep. eexists.
  split; [by apply searchPatients_resolves|].
  rewrite elem_of_filter_keep, elem_of_getAll.
  split; [by exists k|]. left. unfold id_matches.
  rewrite parseInt_decimal_prefix by done.
  split; [apply number_of_Z_not_NaN|]. by rewrite Hrep.
Qed.

Lemma C10_search_7_Eleven_witness :
  exists found, searchPatients "7-Eleven" shop_handle = Resolved found /\
                jon ∈ found.
Proof.
  assert (names_are_strings shop_store) as Hnames
      by decide_by_computation.
  apply (C10_search_finds_id_of_decimal_prefix shop_handle shop_store
           "7" "-Eleven" (KInt 7) jon eq_refl Hnames);
    [discriminate | reflexivity..].
Defined.

(** C10 as stated fails: "0x1A" starts with the decimal integer 0 and is
    not entirely numeric, yet [parseInt] reads it as hexadecimal 26, and
    the search does not find the record whose id is 0. *)
Lemma C10_hex_prefix_is_not_read_as_decimal :
  "0x1A" = "0" +:+ "x1A" /\
  all_decimal_digits "0" = true /\
  starts_with_digit "x1A" = false /\
  decimal_value "0" = 0 /\
  addPatient iso_2024 (<["id" := VNum (Int 0)]> bob) fresh
  = (Resolved (VNum (Int 0)), zero_handle) /\
  getPatientById (VNum (Int 0)) zero_handle = Resolved (Some zero) /\
  zero !! "id" = Some (VNum (Int 0)) /\
  parseInt "0x1A" = Int 26 /\
  searchPatients "0x1A" zero_handle = Resolved [].
Proof. repeat split; vm_compute; reflexivity. Qed.

(** *** C5: the ids the store assigns *)

(** No call closes the handle, lowers the key generator or breaks the
    invariant of the store. *)
Lemma step_opened h s c :
  db h = Some s ->
  exists s', db (step h c) = Some s' /\
             current_number s <= current_number s' /\
             (wf_db s -> wf_db s').
Proof.
  intros Hdb. destruct c as [now d|id U|id]; simpl.
  - unfold addPatient. rewrite Hdb.
    destruct (add _ s) as [k s'| |] eqn:Hadd; simpl;
      [|exists s; split; [done|]; split; [lia|done]..].
    exists s'. split; [done|]. split.
    + by eapply store_record_current_number.
    + intros Hwf. by eapply wf_store_record.
  - unfold updatePatient. rewrite Hdb.
    destruct (convert_value_to_key id) as [k|];
      [|exists s; split; [done|]; split; [lia|done]].
    destruct (patients s !! k) as [R|];
      [|exists s; split; [done|]; split; [lia|done]].
    destruct (put _ s) as [k' s'| |] eqn:Hput; simpl;
      [|exists s; split; [done|]; split; [lia|done]..].
    exists s'. split; [done|]. split.
    + by eapply store_record_current_number.
    + intros Hwf. by eapply wf_store_record.
  - unfold deletePatient. rewrite Hdb.
    destruct (convert_value_to_key id) as [k|];
      [|exists s; split; [done|]; split; [lia|done]].
    simpl. eexists. split; [done|]. split; [simpl; lia|].
    apply wf_delete.
Qed.


Lemma run_opened cs h s :
  db h = Some s ->
  exists s', db (run cs h) = Some s' /\
             current_number s <= current_number s' /\
             (wf_db s -> wf_db s').
Proof.
  revert h s. induction cs as [|c cs IH]; intros h s Hdb.
  - exists s. split; [done|]. split; [lia|done].
  - destruct (step_opened h s c Hdb) as (s1 & Hdb1 & Hle1 & Hwf1).
    destruct (IH _ _ Hdb1) as (s2 & Hdb2 & Hle2 & Hwf2).
    exists s2. split; [done|]. split; [lia|auto].
Qed.

(** Every state a freshly created store reaches satisfies the invariant. *)
Lemma wf_db_reachable cs :
  exists s, db (run cs fresh) = Some s /\ wf_db s.
Proof.
  destruct (run_opened cs fresh createObjectStore eq_refl) as (s & Hdb & _ & Hwf).
  exists s. split; [done|]. apply Hwf, wf_createObjectStore.
Qed.











End claims.

(** * Worked examples *)

Section examples.

Example parseInt_examples :
  parseInt "7" = Int 7 /\
  parseInt "7-Eleven" = Int 7 /\
  parseInt "12abc" = Int 12 /\
  parseInt "  -42px" = Int (-42) /\
  parseInt "0x1A" = Int 26 /\
  parseInt "0xylophone" = NaN /\
  parseInt "ALICE" = NaN /\
  parseInt "   " = NaN.
Proof. repeat split; reflexivity. Qed.

(** Beyond 2^53 the result is the nearest double. *)
Example parseInt_rounds :
  parseInt "9007199254740993" = Int 9007199254740992 /\
  parseInt "-9007199254740995" = Int (-9007199254740996).
Proof. split; vm_compute; reflexivity. Qed.

Example toLowerCase_then_trim :
  trim (toLowerCase "  Alice SMITH ") = "alice smith".
Proof. reflexivity. Qed.

(** A hexadecimal term finds the record whose id is its value. *)
Example search_hex_term :
  let h := (addPatient iso_2024 (<["id" := VNum (Int 26)]> bob) fresh).2 in
  exists p, searchPatients "0x1A" h = Resolved [p] /\
            p !! "id" = Some (VNum (Int 26)).
Proof. eexists. split; vm_compute; reflexivity. Qed.

(** Scenario B: insert two records, delete the first; the second is all
    that is left, under its original id. *)
Example scenario_B :
  let h := run [Add iso_2024 bob; Add iso_2024 (candidate "Jon" 30 "M" EmptyString);
                Delete (VNum (Int 1))] fresh in
  getAllPatients h
  = Resolved [stored 2 iso_2024 (candidate "Jon" 30 "M" EmptyString)].
Proof. vm_compute. reflexivity. Qed.

(** Scenario D: [update(1, {age: 46})]. *)
Example scenario_D :
  (updatePatient (VNum (Int 1)) {[ "age" := VNum (Int 46) ]} bob_handle).1
  = Resolved (stored 1 iso_2024 (candidate "Bob" 46 "M" EmptyString)).
Proof. vm_compute. reflexivity. Qed.

(** Property P4: deleting twice succeeds twice, and the record is gone. *)
Example delete_twice :
  let d1 := deletePatient (VNum (Int 1)) bob_handle in
  let d2 := deletePatient (VNum (Int 1)) d1.2 in
  d1.1 = Resolved tt /\ d2.1 = Resolved tt /\
  getPatientById (VNum (Int 1)) d2.2 = Resolved None.
Proof. repeat split; vm_compute; reflexivity. Qed.

(** An [id] that is no valid key makes [put] throw inside the success
    handler of the read: the promise of [updatePatient] never settles and
    the store is untouched. *)
Example update_with_null_id :
  updatePatient (VNum (Int 1)) {[ "id" := VNull ]} bob_handle
  = (Unsettled, bob_handle).
Proof. vm_compute. reflexivity. Qed.

(** A candidate with [id: undefined] is refused, and an update with
    [id: undefined] never settles: the key path yields a value that is no
    key. *)
Example undefined_id :
  addPatient iso_2024 (<["id" := VUndefined]> bob) fresh
  = (Rejected (DOMException DataError), fresh) /\
  updatePatient (VNum (Int 1)) {[ "id" := VUndefined ]} bob_handle
  = (Unsettled, bob_handle).
Proof. split; vm_compute; reflexivity. Qed.

(** A record without a name makes the filter callback throw. *)
Example search_nameless_record :
  let h := (addPatient iso_2024 ∅ fresh).2 in
  searchPatients "bob" h = Unsettled /\ searchPatients "1" h <> Unsettled.
Proof. split; vm_compute; [reflexivity | discriminate]. Qed.

End examples.

(** * Further properties of the store *)

(** Decidable facts about a concrete store, by evaluation. *)
Ltac by_evaluation := apply (bool_decide_unpack _); vm_compute; exact I.

Section more_store.

Implicit Types (s : IDBDatabase) (h : PatientDatabase) (p : object) (k : key).

Lemma set_db_same h s : db h = Some s -> set_db h s = h.
Proof. destruct h as [n v d]. simpl. by intros ->. Qed.

Lemma db_set_db h s : db (set_db h s) = Some s.
Proof. reflexivity. Qed.

(** *** deletePatient *)

(** X1.  On an opened handle [deletePatient(id)] resolves for every id
    that is a key; afterwards no record has that id, every other record
    is as before, and the key generator has not moved. *)
Theorem X1_delete_removes_exactly_that_record h s id k :
  db h = Some s ->
  convert_value_to_key id = Some k ->
  exists h' s',
    deletePatient id h = (Resolved tt, h') /\
    db h' = Some s' /\
    getPatientById id h' = Resolved None /\
    (forall j, j <> k -> patients s' !! j = patients s !! j) /\
    current_number s' = current_number s.
Proof.
  intros Hdb Hk. eexists _, _. unfold deletePatient. rewrite Hdb, Hk.
  split; [reflexivity|]. split; [reflexivity|].
  unfold getPatientById. simpl. rewrite Hk, lookup_delete_eq.
  split; [done|]. split; [|done].
  intros j Hj. by rewrite lookup_delete_ne.
Qed.

Lemma X1_delete_witness :
  exists h' s',
    deletePatient (VNum (Int 7)) shop_handle = (Resolved tt, h') /\
    db h' = Some s' /\
    getPatientById (VNum (Int 7)) h' = Resolved None /\
    (forall j, j <> KInt 7 -> patients s' !! j = patients shop_store !! j) /\
    current_number s' = current_number shop_store.
Proof.
  apply (X1_delete_removes_exactly_that_record shop_handle shop_store
           (VNum (Int 7)) (KInt 7)); reflexivity.
Defined.

(** X2.  Deleting an id no record has resolves and leaves the handle
    exactly as it was; hence a second [deletePatient] of the same id
    resolves too and changes nothing more. *)
Theorem X2_delete_is_idempotent h s id k :
  db h = Some s ->
  convert_value_to_key id = Some k ->
  (patients s !! k = None -> deletePatient id h = (Resolved tt, h)) /\
  (forall h1, deletePatient id h = (Resolved tt, h1) ->
              deletePatient id h1 = (Resolved tt, h1)).
Proof.
  intros Hdb Hk.
  assert (forall h0 s0, db h0 = Some s0 -> patients s0 !! k = None ->
                        deletePatient id h0 = (Resolved tt, h0)) as Habsent.
  { intros h0 s0 Hdb0 Hnone. unfold deletePatient. rewrite Hdb0, Hk.
    rewrite delete_id by done. f_equal.
    destruct s0 as [m c]. simpl. by apply set_db_same. }
  split; [by apply Habsent|].
  intros h1. unfold deletePatient at 1. rewrite Hdb, Hk. intros [= <-].
  eapply Habsent; [reflexivity|]. simpl. apply lookup_delete_eq.
Qed.

Lemma X2_delete_twice_witness :
  deletePatient (VNum (Int 999)) bob_handle = (Resolved tt, bob_handle) /\
  deletePatient (VNum (Int 1)) (deletePatient (VNum (Int 1)) bob_handle).2
  = (Resolved tt, (deletePatient (VNum (Int 1)) bob_handle).2).
Proof.
  split.
  - apply (X2_delete_is_idempotent bob_handle bob_store (VNum (Int 999))
             (KInt 999) eq_refl eq_refl). reflexivity.
  - apply (X2_delete_is_idempotent bob_handle bob_store (VNum (Int 1))
             (KInt 1) eq_refl eq_refl). reflexivity.
Defined.

(** *** Ids of another type *)

(** Where every record has a number for an id, no record sits under a
    string. *)
Lemma no_string_key s t :
  wf_db s -> ids_are_numbers s -> patients s !! KStr t = None.
Proof.
  intros Hwf Hnum. destruct (patients s !! KStr t) as [p|] eqn:E; [|done].
  pose proof (wf_db_key _ _ _ Hwf E) as Hkey.
  pose proof (Hnum _ _ E) as Hp. simpl in Hp.
  unfold id_is_number in Hp. unfold get_prop in Hkey.
  destruct (p !! "id") as [[| | |[| |]| |]|]; done.
Qed.

(** X3.  Ids are compared as keys, without conversion: in a store whose
    records all have a number for an id, an id given as a string, be it
    the text of a stored id, matches no record.  [getPatientById]
    resolves with [undefined], [updatePatient] rejects with "Patient not
    found" and [deletePatient] resolves and leaves the store as it was. *)
Theorem X3_a_string_id_matches_no_numbered_record h s t :
  db h = Some s ->
  wf_db s ->
  ids_are_numbers s ->
  getPatientById (VStr t) h = Resolved None /\
  (forall updates,
      updatePatient (VStr t) updates h
      = (Rejected (Error "Patient not found"), h)) /\
  deletePatient (VStr t) h = (Resolved tt, h).
Proof.
  intros Hdb Hwf Hnum. pose proof (no_string_key s t Hwf Hnum) as Habs.
  unfold getPatientById, updatePatient, deletePatient. rewrite Hdb. simpl.
  rewrite Habs. split; [done|]. split; [done|].
  rewrite delete_id by done. f_equal.
  destruct s as [m c]. simpl. by apply set_db_same.
Qed.

Lemma X3_string_id_witness :
  getPatientById (VNum (Int 7)) shop_handle = Resolved (Some jon) /\
  getPatientById (VStr "7") shop_handle = Resolved None /\
  deletePatient (VStr "7") shop_handle = (Resolved tt, shop_handle).
Proof.
  assert (wf_db shop_store) as Hwf by by_evaluation.
  assert (ids_are_numbers shop_store) as Hnum by by_evaluation.
  destruct (X3_a_string_id_matches_no_numbered_record shop_handle shop_store
              "7" eq_refl Hwf Hnum) as (Hget & _ & Hdelete).
  split; [reflexivity|]. split; [exact Hget | exact Hdelete].
Defined.

(** *** addPatient *)

(** X4.  [addPatient] never overwrites: a candidate whose [id] is the key
    of a stored record is refused with a [ConstraintError] and the store
    is left as it was. *)
Theorem X4_insert_refuses_an_id_in_use h s now patientData x k q :
  db h = Some s ->
  patientData !! "id" = Some x ->
  convert_value_to_key x = Some k ->
  patients s !! k = Some q ->
  addPatient now patientData h = (Rejected (DOMException ConstraintError), h).
Proof.
  intros Hdb Hx Hk Hq. unfold addPatient, add, store_record.
  rewrite Hdb, evaluate_key_path_createdAt.
  rewrite (evaluate_key_path_Some _ x) by (by destruct x).
  rewrite Hk, Hq. by rewrite bool_decide_eq_true_2 by eauto.
Qed.

Lemma X4_insert_refuses_witness :
  addPatient iso_2024 (<["id" := VNum (Int 1)]> (candidate "Eve" 33 "F" EmptyString))
    bob_handle
  = (Rejected (DOMException ConstraintError), bob_handle).
Proof.
  apply (X4_insert_refuses_an_id_in_use bob_handle bob_store _ _
           (VNum (Int 1)) (KInt 1) (stored 1 iso_2024 bob)); reflexivity.
Defined.

(** X5.  A candidate whose [id] is present but is no key ([null], a
    boolean, [NaN], a blob) makes [addPatient] reject with a [DataError];
    nothing is stored. *)
Theorem X5_insert_rejects_an_id_that_is_no_key h s now patientData x :
  db h = Some s ->
  patientData !! "id" = Some x ->
  x <> VUndefined ->
  convert_value_to_key x = None ->
  addPatient now patientData h = (Rejected (DOMException DataError), h).
Proof.
  intros Hdb Hx Hundef Hk. unfold addPatient, add, store_record.
  rewrite Hdb, evaluate_key_path_createdAt.
  rewrite (evaluate_key_path_Some _ x) by done. by rewrite Hk.
Qed.

Lemma X5_insert_null_id_witness :
  addPatient iso_2024 (<["id" := VNull]> bob) fresh
  = (Rejected (DOMException DataError), fresh).
Proof.
  apply (X5_insert_rejects_an_id_that_is_no_key fresh createObjectStore _ _ VNull);
    [reflexivity | reflexivity | discriminate | reflexivity].
Defined.

Lemma store_record_frame no_overwrite v s k s' :
  store_record no_overwrite v s = Success k s' ->
  forall j, j <> k -> patients s' !! j = patients s !! j.
Proof.
  unfold store_record.
  destruct (evaluate_key_path v) as [x|].
  - destruct (convert_value_to_key x) as [k'|]; [|done].
    destruct (no_overwrite && _); [done|].
    intros [= <- <-] j Hj. simpl. by rewrite lookup_insert_ne.
  - destruct (2 ^ 53 <? current_number s); [done|].
    destruct (no_overwrite && _); [done|].
    intros [= <- <-] j Hj. simpl. by rewrite lookup_insert_ne.
Qed.

(** X6.  Whenever [addPatient] resolves, the id it returns was free
    before the call, the record now stored under it agrees with the
    candidate on every property other than [id] and [createdAt] (the
    report's blob and file name included), and no other record was
    touched. *)
Theorem X6_insert_stores_the_candidate_and_nothing_else h s now patientData r h' :
  db h = Some s ->
  addPatient now patientData h = (Resolved r, h') ->
  exists k rec s',
    r = key_value k /\
    db h' = Some s' /\
    patients s !! k = None /\
    patients s' !! k = Some rec /\
    (forall f, f <> "id" -> f <> "createdAt" -> rec !! f = patientData !! f) /\
    (forall j, j <> k -> patients s' !! j = patients s !! j).
Proof.
  intros Hdb. unfold addPatient. rewrite Hdb.
  destruct (add _ s) as [k s'| |] eqn:Hadd; [|done..].
  intros [= <- <-].
  destruct (store_record_lookup _ _ _ _ _ Hadd) as (rec & Hrec & Hsame).
  exists k, rec, s'. split; [done|]. split; [done|].
  split; [by eapply add_was_absent|]. split; [done|]. split.
  - intros f Hid Hcreated. rewrite Hsame by done. by rewrite lookup_insert_ne.
  - by eapply store_record_frame.
Qed.

Lemma X6_insert_witness :
  exists k rec s',
    VNum (Int 9) = key_value k /\
    db (addPatient iso_2024 bob shop_handle).2 = Some s' /\
    patients shop_store !! k = None /\
    patients s' !! k = Some rec /\
    (forall f, f <> "id" -> f <> "createdAt" -> rec !! f = bob !! f) /\
    (forall j, j <> k -> patients s' !! j = patients shop_store !! j).
Proof.
  apply (X6_insert_stores_the_candidate_and_nothing_else shop_handle shop_store
           iso_2024 bob (VNum (Int 9)) (addPatient iso_2024 bob shop_handle).2);
    [reflexivity | vm_compute; reflexivity].
Defined.

End more_store.

(** * Order and consistency of what the store returns *)

Section store_order.

Implicit Types (s : IDBDatabase) (h : PatientDatabase) (p : object) (k : key).

Lemma ascii_compare_trans x y z :
  Ascii.compare x y <> Gt -> Ascii.compare y z <> Gt ->
  Ascii.compare x z <> Gt /\
  (Ascii.compare x z = Eq -> Ascii.compare x y = Eq /\ Ascii.compare y z = Eq).
Proof.
  unfold Ascii.compare. rewrite !N.compare_le_iff, !N.compare_eq_iff.
  intros Hxy Hyz. split; [lia|]. intros Hxz. lia.
Qed.

Lemma string_compare_trans a b c :
  String.compare a b <> Gt -> String.compare b c <> Gt ->
  String.compare a c <> Gt.
Proof.
  revert b c. induction a as [|x a IH]; intros [|y b] [|z c]; simpl; try done.
  intros Hab Hbc.
  destruct (Ascii.compare x y) eqn:Exy; [| |done];
    destruct (Ascii.compare y z) eqn:Eyz; [| |done| | |done].
  - destruct (ascii_compare_trans x y z) as [Hle Heq]; [by rewrite Exy | by rewrite Eyz|].
    destruct (Ascii.compare x z) eqn:Exz; [by eapply IH | done | done].
  - destruct (ascii_compare_trans x y z) as [Hle Heq]; [by rewrite Exy | by rewrite Eyz|].
    destruct (Ascii.compare x z) eqn:Exz; [|done..].
    destruct Heq as [_ Heq]; [done|]. congruence.
  - destruct (ascii_compare_trans x y z) as [Hle Heq]; [by rewrite Exy | by rewrite Eyz|].
    destruct (Ascii.compare x z) eqn:Exz; [|done..].
    destruct Heq as [Heq _]; [done|]. congruence.
  - destruct (ascii_compare_trans x y z) as [Hle Heq]; [by rewrite Exy | by rewrite Eyz|].
    destruct (Ascii.compare x z) eqn:Exz; [|done..].
    destruct Heq as [Heq _]; [done|]. congruence.
Qed.

Lemma string_leb_trans a b c :
  String.leb a b = true -> String.leb b c = true -> String.leb a c = true.
Proof.
  unfold String.leb. intros Hab Hbc.
  pose proof (string_compare_trans a b c) as H.
  destruct (String.compare a b), (String.compare b c), (String.compare a c);
    try done; exfalso; by apply H.
Qed.

Lemma key_leb_trans a b c :
  key_leb a b = true -> key_leb b c = true -> key_leb a c = true.
Proof.
  destruct a as [[]|x|x], b as [[]|y|y], c as [[]|z|z]; simpl; try done.
  - rewrite !Z.leb_le. lia.
  - apply string_leb_trans.
Qed.

Lemma key_leb_total a b : key_leb a b = true \/ key_leb b a = true.
Proof.
  destruct a as [[]|x|x], b as [[]|y|y]; simpl; auto.
  - rewrite !Z.leb_le. lia.
  - apply String.leb_total.
Qed.

#[local] Instance key_le_total : Total key_le.
Proof. intros a b. apply key_leb_total. Qed.

#[local] Instance key_le_trans : Transitive key_le.
Proof. intros a b c. apply key_leb_trans. Qed.

Lemma StronglySorted_before (l : list (key * object)) :
  StronglySorted key_le l ->
  NoDup l.*1 ->
  (forall e, e ∈ l -> record_key e.2 = Some e.1) ->
  StronglySorted before l.*2.
Proof.
  induction 1 as [|e l Hs IH Hall]; intros Hnd Hkey; simpl; [constructor|].
  apply NoDup_cons in Hnd as [Hnotin Hnd].
  constructor.
  - apply IH; [done|]. intros e' He'. apply Hkey. by right.
  - rewrite Forall_fmap. rewrite Forall_forall in Hall |- *.
    intros e' He'. simpl. exists e.1, e'.1.
    split; [apply Hkey; left|]. split; [apply Hkey; by right|].
    split; [by apply Hall|].
    intros Heq. apply Hnotin. rewrite Heq. by apply list_elem_of_fmap_2.
Qed.

Lemma key_leb_antisym a b :
  key_leb a b = true -> key_leb b a = true -> a = b.
Proof.
  destruct a as [[]|x|x], b as [[]|y|y]; simpl; try done.
  - rewrite !Z.leb_le. intros. f_equal. lia.
  - intros Hab Hba. f_equal. by apply String.leb_antisym.
Qed.

(** A list of the stored records in ascending key order is the list
    [getAll] returns. *)
Lemma getAll_unique s (l : list (key * object)) :
  StronglySorted key_le l -> l ≡ₚ map_to_list (patients s) -> getAll s = l.*2.
Proof.
  intros Hsorted Hperm. unfold getAll. f_equal.
  apply (StronglySorted_unique_strong key_le).
  - intros [k1 p1] [k2 p2] H1 H2 Hle1 Hle2.
    rewrite merge_sort_Permutation in H1. apply elem_of_map_to_list in H1.
    rewrite Hperm in H2. apply elem_of_map_to_list in H2.
    unfold key_le in Hle1, Hle2. simpl in Hle1, Hle2.
    assert (k1 = k2) as -> by (by apply key_leb_antisym). congruence.
  - apply StronglySorted_merge_sort; apply _.
  - done.
  - by rewrite merge_sort_Permutation.
Qed.

(** The key the generator is about to hand out is above every number
    that is the key of a record. *)
Lemma generated_key_is_last s k p :
  wf_db s -> ids_are_numbers s -> current_number s <= 2 ^ 53 ->
  patients s !! k = Some p ->
  key_leb k (KInt (current_number s)) = true.
Proof.
  intros Hwf Hnum Hle Hk. destruct (Hwf _ _ Hk) as [_ Hg].
  destruct k as [[]|z|t]; simpl in *.
  - done.
  - destruct (current_number s <=? 2 ^ 53) eqn:E; lia.
  - destruct (current_number s <=? Z.min z (2 ^ 53)) eqn:E; lia.
  - by rewrite no_string_key in Hk.
Qed.

(** X7.  [getAllPatients] lists the records in strictly ascending key
    order.  For ids the store assigns this is the order of insertion:
    where every record has a number for an id, the record of an insert
    that brings no id goes to the end of the list. *)
Theorem X7_getAll_is_in_ascending_id_order h s :
  db h = Some s ->
  wf_db s ->
  (exists all, getAllPatients h = Resolved all /\ StronglySorted before all) /\
  (forall now patientData r h',
      ids_are_numbers s ->
      patientData !! "id" = None ->
      addPatient now patientData h = (Resolved r, h') ->
      r = VNum (Int (current_number s)) /\
      getAllPatients h'
      = Resolved (getAll s ++ [stored (current_number s) now patientData])%list).
Proof.
  intros Hdb Hwf. split.
  - exists (getAll s). unfold getAllPatients. rewrite Hdb.
    split; [done|]. unfold getAll. apply StronglySorted_before.
    + apply StronglySorted_merge_sort; apply _.
    + rewrite merge_sort_Permutation. apply NoDup_fst_map_to_list.
    + intros [k p]. rewrite merge_sort_Permutation.
      intros Hin%elem_of_map_to_list. simpl. unfold record_key.
      by eapply wf_db_key.
  - intros now d r h' Hnum Hid. unfold addPatient, add, store_record.
    rewrite Hdb, evaluate_key_path_createdAt, (evaluate_key_path_None _ Hid).
    destruct (2 ^ 53 <? current_number s) eqn:Emax; [done|].
    destruct (true && _) eqn:Eused; [done|]. simpl.
    intros [= <- <-]. split; [done|].
    unfold getAllPatients. simpl. f_equal. fold (stored (current_number s) now d).
    pose (l := (merge_sort key_le (map_to_list (patients s))
                ++ [(KInt (current_number s), stored (current_number s) now d)])%list).
    rewrite (getAll_unique _ l).
    + unfold l, getAll. by rewrite fmap_app.
    + apply StronglySorted_app_2.
      * intros [k p] e Hin ->%list_elem_of_singleton.
        rewrite merge_sort_Permutation in Hin. apply elem_of_map_to_list in Hin.
        unfold key_le. simpl. eapply generated_key_is_last; [done..| |done]. lia.
      * apply StronglySorted_merge_sort; apply _.
      * repeat constructor.
    + unfold l. simpl. rewrite map_to_list_insert by (apply wf_db_fresh; [done|lia]).
      rewrite merge_sort_Permutation. symmetry. apply Permutation_cons_append.
Qed.

Lemma X7_getAll_order_witness :
  (exists all, getAllPatients shop_handle = Resolved all /\
               StronglySorted before all) /\
  getAllPatients (addPatient iso_2024 bob shop_handle).2
  = Resolved [jon; eleven; stored 9 iso_2024 bob].
Proof.
  assert (wf_db shop_store) as Hwf by by_evaluation.
  assert (ids_are_numbers shop_store) as Hnum by by_evaluation.
  destruct (X7_getAll_is_in_ascending_id_order shop_handle shop_store eq_refl Hwf)
    as [Hsorted Hlast].
  split; [exact Hsorted|].
  destruct (Hlast iso_2024 bob (VNum (Int 9)) (addPatient iso_2024 bob shop_handle).2
              Hnum eq_refl) as [_ ->]; vm_compute; reflexivity.
Defined.

(** X8.  What [getAllPatients] lists is what [getPatientById] finds: a
    record is in the list exactly when some id retrieves it, and the id
    that retrieves it is the one it carries. *)
Theorem X8_getAll_and_getById_agree h s p :
  db h = Some s ->
  wf_db s ->
  (p ∈ getAll s <-> exists id, getPatientById id h = Resolved (Some p)) /\
  (p ∈ getAll s -> getPatientById (get_prop p "id") h = Resolved (Some p)).
Proof.
  intros Hdb Hwf.
  assert (p ∈ getAll s -> getPatientById (get_prop p "id") h = Resolved (Some p))
    as Hfind.
  { intros [k Hk]%elem_of_getAll. unfold getPatientById.
    rewrite Hdb, (wf_db_key _ _ _ Hwf Hk). by rewrite Hk. }
  split; [|done]. split.
  - intros Hin. eexists. by apply Hfind.
  - intros [id Hid]. unfold getPatientById in Hid. rewrite Hdb in Hid.
    destruct (convert_value_to_key id) as [k|]; [|done].
    injection Hid as Hk. apply elem_of_getAll. by exists k.
Qed.

Lemma X8_getAll_getById_witness :
  (jon ∈ getAll shop_store <->
   exists id, getPatientById id shop_handle = Resolved (Some jon)) /\
  (jon ∈ getAll shop_store ->
   getPatientById (get_prop jon "id") shop_handle = Resolved (Some jon)).
Proof.
  assert (wf_db shop_store) as Hwf by by_evaluation.
  apply (X8_getAll_and_getById_agree shop_handle shop_store jon eq_refl Hwf).
Defined.

End store_order.

(** * Further properties of search *)

Section more_search.

Implicit Types (s : IDBDatabase) (h : PatientDatabase) (p : object) (k : key).

Lemma filter_throwing_Some {A} (f : A -> option bool) l r :
  filter_throwing f l = Some r ->
  sublist r l /\
  forall x, x ∈ r <-> x ∈ l /\ f x = Some true.
Proof.
  revert r. induction l as [|x l IH]; intros r; simpl.
  - intros [= <-]. split; [constructor|]. intros x. split.
    + by intros ?%elem_of_nil.
    + by intros [?%elem_of_nil _].
  - destruct (f x) as [b|] eqn:Ex; [|done].
    destruct (filter_throwing f l) as [r'|]; [|done].
    destruct (IH r' eq_refl) as [Hsub Hin]. intros [= <-].
    assert (forall y, y ∈ l -> f y = Some true -> y ∈ r') as Hback
        by (intros y ? ?; by apply Hin).
    destruct b.
    + split; [by constructor|]. intros y. rewrite !elem_of_cons, Hin. split.
      * intros [->|[? ?]]; eauto.
      * intros [[->|?] ?]; eauto.
    + split; [by constructor|]. intros y. rewrite elem_of_cons, Hin. split.
      * intros [? ?]; eauto.
      * intros [[->|?] ?]; [congruence | eauto].
Qed.

Lemma filter_throwing_None {A} (f : A -> option bool) l :
  filter_throwing f l = None <-> exists x, x ∈ l /\ f x = None.
Proof.
  induction l as [|x l IH]; simpl.
  - split; [done | by intros (? & ?%elem_of_nil & _)].
  - destruct (f x) as [b|] eqn:Ex.
    + destruct (filter_throwing f l) as [r|].
      * split; [done|]. intros (y & [->|Hy]%elem_of_cons & Hn); [congruence|].
        destruct IH as [_ IH]. discriminate IH. eauto.
      * split; [|done]. intros _. destruct IH as [IH _].
        destruct (IH eq_refl) as (y & Hy & Hn). exists y. split; [by right|done].
    + split; [|done]. intros _. exists x. split; [by left|done].
Qed.

Lemma search_filter_true term p :
  search_filter (parseInt term) (trim (toLowerCase term)) p = Some true
  <-> id_matches term p \/ name_matches term p.
Proof.
  rewrite <- search_keep_spec. unfold search_filter, search_keep.
  destruct (negb (isNaN (parseInt term)) && _); simpl; [done|].
  destruct (get_prop p "name"); try done.
  by destruct (includes _ _).
Qed.

Lemma search_filter_None term p :
  search_filter (parseInt term) (trim (toLowerCase term)) p = None
  <-> ~ id_matches term p /\ name_is_string p = false.
Proof.
  unfold search_filter, id_matches, name_is_string.
  destruct (negb (isNaN (parseInt term)) && _) eqn:E.
  - split; [done|]. intros [Hno _]. destruct Hno.
    apply andb_true_iff in E as [Hn Heq].
    apply strict_eq_number in Heq as [Heq Hnan].
    split; [done|]. by apply get_prop_Some in Heq.
  - assert (~ (parseInt term <> NaN /\ p !! "id" = Some (VNum (parseInt term))))
      as Hno.
    { intros [Hnan Hid]. apply andb_false_iff in E as [E|E].
      - by destruct (parseInt term).
      - apply get_prop_Some in Hid; [|done]. rewrite Hid in E.
        assert (strict_eq (VNum (parseInt term)) (VNum (parseInt term)) = true)
          as Hrefl by (by apply strict_eq_number).
        congruence. }
    unfold get_prop. destruct (p !! "name") as [[]|]; simpl;
      try (split; [by intros _ | done]).
    destruct (includes _ _); split; try done; by intros [_ ?].
Qed.

(** X9.  Whenever [searchPatients] resolves, also in a store that holds
    records without a string name, the result is a sublist of what
    [getAll] returns, in the same order, and consists exactly of the
    stored records that match by id or by name. *)
Theorem X9_search_result_is_a_sublist_of_getAll h s term found :
  db h = Some s ->
  searchPatients term h = Resolved found ->
  sublist found (getAll s) /\
  forall p, p ∈ found <->
            p ∈ getAll s /\ (id_matches term p \/ name_matches term p).
Proof.
  intros Hdb. unfold searchPatients. rewrite Hdb.
  destruct (filter_throwing _ _) as [r|] eqn:E; [|done]. intros [= <-].
  destruct (filter_throwing_Some _ _ _ E) as [Hsub Hin].
  split; [done|]. intros p. by rewrite Hin, search_filter_true.
Qed.

Lemma X9_search_sublist_witness :
  sublist [eleven] (getAll shop_store) /\
  forall p, p ∈ [eleven] <->
            p ∈ getAll shop_store /\
            (id_matches "eleven" p \/ name_matches "eleven" p).
Proof.
  apply (X9_search_result_is_a_sublist_of_getAll shop_handle shop_store
           "eleven" [eleven] eq_refl).
  vm_compute. reflexivity.
Defined.

(** X10.  A record without a string for a name can leave the promise
    of [searchPatients] pending for ever: the filter callback throws on it
    inside the success handler of the [getAll] request, where neither
    [resolve] nor [reject] is reached.  This happens exactly when the
    store holds such a record and the term does not match it by id; the
    promise resolves exactly when every record the term does not match by
    id has a string for a name. *)
Theorem X10_search_never_settles_iff_a_nameless_record_is_read h s term :
  db h = Some s ->
  (searchPatients term h = Unsettled <->
   exists p, p ∈ getAll s /\ ~ id_matches term p /\ name_is_string p = false) /\
  ((exists found, searchPatients term h = Resolved found) <->
   forall p, p ∈ getAll s -> ~ id_matches term p -> name_is_string p = true).
Proof.
  intros Hdb. unfold searchPatients. rewrite Hdb.
  destruct (filter_throwing _ _) as [r|] eqn:E.
  - assert (forall p, p ∈ getAll s -> ~ id_matches term p ->
                      name_is_string p = true) as Hall.
    { intros p Hin Hno. destruct (name_is_string p) eqn:Hname; [done|].
      assert (filter_throwing
                (search_filter (parseInt term) (trim (toLowerCase term)))
                (getAll s) = None) as Hnone.
      { apply filter_throwing_None. exists p. split; [done|].
        by apply search_filter_None. }
      congruence. }
    split; [split; [done|] | split; [done | eauto]].
    intros (p & Hin & Hno & Hname). rewrite (Hall p) in Hname; done.
  - apply filter_throwing_None in E as (p & Hin & Hn).
    apply search_filter_None in Hn as [Hno Hname].
    split; [split; [eauto | done] | split; [by intros [? ?] |]].
    intros Hall. rewrite (Hall p) in Hname; done.
Qed.

Lemma X10_search_nameless_witness :
  searchPatients "bob" nameless_handle = Unsettled /\
  exists found, searchPatients "1" nameless_handle = Resolved found.
Proof.
  destruct (X10_search_never_settles_iff_a_nameless_record_is_read
              nameless_handle nameless_store "bob" eq_refl) as [[_ Hpending] _].
  destruct (X10_search_never_settles_iff_a_nameless_record_is_read
              nameless_handle nameless_store "1" eq_refl) as [_ [_ Hresolves]].
  split.
  - apply Hpending. exists nameless. split; [|split].
    + apply elem_of_getAll. by exists (KInt 1).
    + intros [Hnan _]. by apply Hnan.
    + reflexivity.
  - apply Hresolves. intros p [k Hk]%elem_of_getAll Hno. exfalso. apply Hno.
    destruct (decide (k = KInt 1)) as [->|Hne].
    + injection Hk as <-. split; [discriminate | reflexivity].
    + unfold nameless_store in Hk. simpl in Hk.
      by rewrite lookup_singleton_ne in Hk.
Defined.

End more_search.

(** * Further properties of update *)

Section more_update.

Implicit Types (s : IDBDatabase) (h : PatientDatabase) (p : object) (k : key).

(** An update that brings no [id] of its own replaces the record in
    place. *)
Lemma updatePatient_in_place h s k R updates :
  db h = Some s ->
  wf_db s ->
  patients s !! k = Some R ->
  updates !! "id" = None ->
  let s' := {| patients := <[k := spread R updates]> (patients s);
               current_number := current_number s |} in
  updatePatient (key_value k) updates h
  = (Resolved (spread R updates), set_db h s') /\ wf_db s'.
Proof.
  intros Hdb Hwf HR Hid s'.
  destruct (wf_db_id _ _ _ Hwf HR) as (x & Hx & Hundef & Hconv).
  assert (spread R updates !! "id" = Some x) as Hmid
      by (unfold spread; by rewrite lookup_union_r).
  assert (put (spread R updates) s = Success k s') as Hput.
  { unfold put, store_record.
    rewrite (evaluate_key_path_Some _ x) by done.
    rewrite Hconv. simpl. unfold s'. by destruct (Hwf _ _ HR) as [_ ->]. }
  split.
  - unfold updatePatient. by rewrite Hdb, convert_key_value, HR, Hput.
  - by eapply wf_store_record.
Qed.

(** X11.  When the merged record carries an [id] that is no key (the
    update brought [id: null], a boolean, [NaN] or a blob), [put] throws
    inside the success handler of the read: the promise of
    [updatePatient] never settles and the store stays as it was. *)
Theorem X11_update_with_an_id_that_is_no_key_never_settles h s id k R updates x :
  db h = Some s ->
  convert_value_to_key id = Some k ->
  patients s !! k = Some R ->
  updates !! "id" = Some x ->
  x <> VUndefined ->
  convert_value_to_key x = None ->
  updatePatient id updates h = (Unsettled, h).
Proof.
  intros Hdb Hk HR Hx Hundef Hconv.
  unfold updatePatient, put, store_record. rewrite Hdb, Hk, HR.
  rewrite (evaluate_key_path_Some _ x); [by rewrite Hconv|].
  unfold spread. by apply lookup_union_Some_l.
Qed.

Lemma X11_update_null_id_witness :
  updatePatient (VNum (Int 1)) {[ "id" := VNull ]} bob_handle
  = (Unsettled, bob_handle).
Proof.
  apply (X11_update_with_an_id_that_is_no_key_never_settles bob_handle bob_store
           _ (KInt 1) (stored 1 iso_2024 bob) _ VNull);
    [reflexivity..| discriminate | reflexivity].
Defined.

(** X12.  Updates that bring no [id] compose: an empty update returns
    the record and changes nothing, and two updates of the same record in
    a row leave the store as the single update with the second laid over
    the first does, with the same final result. *)
Theorem X12_updates_compose h s k R first second :
  db h = Some s ->
  wf_db s ->
  patients s !! k = Some R ->
  first !! "id" = None ->
  second !! "id" = None ->
  updatePatient (key_value k) ∅ h = (Resolved R, h) /\
  updatePatient (key_value k) second
    (updatePatient (key_value k) first h).2
  = updatePatient (key_value k) (spread first second) h.
Proof.
  intros Hdb Hwf HR H1 H2. split.
  - destruct (updatePatient_in_place h s k R ∅ Hdb Hwf HR) as [-> _];
      [apply lookup_empty|].
    unfold spread. rewrite (left_id_L ∅ (∪)).
    rewrite insert_id by done. f_equal.
    destruct s as [m c]. simpl. by apply set_db_same.
  - destruct (updatePatient_in_place h s k R first Hdb Hwf HR H1) as [E1 Hwf1].
    rewrite E1. simpl.
    destruct (updatePatient_in_place _ _ k (spread R first) second
                (db_set_db h _) Hwf1) as [E2 _];
      [simpl; apply lookup_insert_eq | done |].
    rewrite E2.
    destruct (updatePatient_in_place h s k R (spread first second) Hdb Hwf HR)
      as [E3 _].
    { unfold spread. rewrite lookup_union_r by done. done. }
    rewrite E3. simpl. unfold spread, set_db. simpl.
    rewrite insert_insert_eq. by rewrite (assoc_L (∪)).
Qed.

Lemma X12_updates_compose_witness :
  updatePatient (VNum (Int 1)) ∅ bob_handle
  = (Resolved (stored 1 iso_2024 bob), bob_handle) /\
  updatePatient (VNum (Int 1)) {[ "notes" := VStr "healing" ]}
    (updatePatient (VNum (Int 1)) {[ "age" := VNum (Int 46) ]} bob_handle).2
  = updatePatient (VNum (Int 1))
      (spread {[ "age" := VNum (Int 46) ]} {[ "notes" := VStr "healing" ]})
      bob_handle.
Proof.
  assert (wf_db bob_store) as Hwf by by_evaluation.
  apply (X12_updates_compose bob_handle bob_store (KInt 1)
           (stored 1 iso_2024 bob) _ _ eq_refl Hwf); reflexivity.
Defined.

(** X13.  An update that brings an [id] other than the record's own does
    not move the record: the merged record is written under the new id,
    replacing whatever record was there, and the record the update was
    called on stays under its id unchanged. *)
Theorem X13_update_with_another_id_copies_the_record h s k R updates x k' :
  db h = Some s ->
  patients s !! k = Some R ->
  updates !! "id" = Some x ->
  convert_value_to_key x = Some k' ->
  k' <> k ->
  exists h' s',
    updatePatient (key_value k) updates h = (Resolved (spread R updates), h') /\
    db h' = Some s' /\
    patients s' !! k = Some R /\
    patients s' !! k' = Some (spread R updates) /\
    forall j, j <> k' -> patients s' !! j = patients s !! j.
Proof.
  intros Hdb HR Hx Hconv Hne.
  assert (spread R updates !! "id" = Some x) as Hmid
      by (unfold spread; by apply lookup_union_Some_l).
  eexists _, _. unfold updatePatient, put, store_record.
  rewrite Hdb, convert_key_value, HR.
  rewrite (evaluate_key_path_Some _ x) by (by destruct x).
  rewrite Hconv. simpl.
  split; [reflexivity|]. split; [reflexivity|]. simpl.
  split; [by rewrite lookup_insert_ne|].
  split; [by rewrite lookup_insert_eq|].
  intros j Hj. by rewrite lookup_insert_ne.
Qed.

Lemma X13_update_overwrites_witness :
  exists h' s',
    updatePatient (VNum (Int 7)) {[ "id" := VNum (Int 8) ]} shop_handle
    = (Resolved (spread jon {[ "id" := VNum (Int 8) ]}), h') /\
    db h' = Some s' /\
    patients s' !! KInt 7 = Some jon /\
    patients s' !! KInt 8 = Some (spread jon {[ "id" := VNum (Int 8) ]}) /\
    forall j, j <> KInt 8 -> patients s' !! j = patients shop_store !! j.
Proof.
  apply (X13_update_with_another_id_copies_the_record shop_handle shop_store
           (KInt 7) jon _ (VNum (Int 8)) (KInt 8));
    [reflexivity.. | discriminate].
Defined.

End more_update.

(** * The key generator *)

Section key_generator.

Implicit Types (s : IDBDatabase) (h : PatientDatabase) (p : object) (k : key).

Lemma plain_insert_exhausted h s now patientData :
  db h = Some s ->
  2 ^ 53 < current_number s ->
  patientData !! "id" = None ->
  addPatient now patientData h = (Rejected (DOMException ConstraintError), h).
Proof.
  intros Hdb Hmax Hnone. unfold addPatient, add, store_record.
  rewrite Hdb, evaluate_key_path_createdAt, (evaluate_key_path_None _ Hnone).
  destruct (2 ^ 53 <? current_number s) eqn:E; [done | lia].
Qed.

(** X14.  The key generator has no way back: once a record was inserted
    under a caller's numeric id of 2^53 or more, every later
    [addPatient] of a candidate that has no [id] property is refused with
    a [ConstraintError], whatever calls came in between. *)
Theorem X14_a_huge_id_exhausts_the_key_generator
    h s now0 candidate0 z cs now patientData :
  db h = Some s ->
  candidate0 !! "id" = Some (VNum (Int z)) ->
  2 ^ 53 <= z ->
  patients s !! KInt z = None ->
  patientData !! "id" = None ->
  let h1 := run cs (addPatient now0 candidate0 h).2 in
  (addPatient now0 candidate0 h).1 = Resolved (VNum (Int z)) /\
  addPatient now patientData h1 = (Rejected (DOMException ConstraintError), h1).
Proof.
  intros Hdb Hid Hz Habs Hnone h1.
  assert (addPatient now0 candidate0 h
          = (Resolved (VNum (Int z)),
             set_db h
               {| patients := <[KInt z := <["createdAt" := VStr now0]> candidate0]>
                                (patients s);
                  current_number :=
                    update_key_generator (KInt z) (current_number s) |}))
    as Hadd.
  { unfold addPatient, add, store_record.
    rewrite Hdb, evaluate_key_path_createdAt.
    rewrite (evaluate_key_path_Some _ (VNum (Int z))) by done.
    simpl. rewrite Habs.
    by rewrite bool_decide_eq_false_2 by (by intros [? ?]). }
  split; [by rewrite Hadd|].
  unfold h1. rewrite Hadd. simpl.
  match goal with
  | |- context [set_db h ?s1] =>
      destruct (run_opened cs (set_db h s1) s1 eq_refl) as (s2 & Hdb2 & Hle & _)
  end.
  apply (plain_insert_exhausted _ s2); [done| |done].
  simpl in Hle.
  destruct (current_number s <=? Z.min z (2 ^ 53)) eqn:E; lia.
Qed.

Lemma X14_exhausted_generator_witness :
  let big : object := <["id" := VNum (Int (2 ^ 53))]> bob in
  let h1 := run [Delete (VNum (Int (2 ^ 53)))] (addPatient iso_2024 big fresh).2 in
  (addPatient iso_2024 big fresh).1 = Resolved (VNum (Int (2 ^ 53))) /\
  addPatient iso_2024 bob h1 = (Rejected (DOMException ConstraintError), h1).
Proof.
  intros big.
  apply (X14_a_huge_id_exhausts_the_key_generator fresh createObjectStore
           iso_2024 big (2 ^ 53) [Delete (VNum (Int (2 ^ 53)))] iso_2024 bob);
    [reflexivity | reflexivity | reflexivity | reflexivity | reflexivity].
Defined.

End key_generator.

(** * Numbers as text, and the search box *)

Section text.

Implicit Types (s : IDBDatabase) (h : PatientDatabase) (p : object) (k : key).

Lemma append_assoc_s (a b c : string) : (a +:+ b) +:+ c = a +:+ (b +:+ c).
Proof.
  induction a as [|x a IH]; [done|]. by rewrite !append_cons, IH.
Qed.

Lemma append_nil_r (a : string) : a +:+ EmptyString = a.
Proof. induction a as [|x a IH]; [done|]. by rewrite append_cons, IH. Qed.

Lemma length_append (a b : string) :
  String.length (a +:+ b) = (String.length a + String.length b)%nat.
Proof.
  induction a as [|x a IH]; [done|]. rewrite append_cons. simpl. by rewrite IH.
Qed.

Lemma digit_char_spec d :
  0 <= d <= 9 ->
  code (digit_char d) = 48 + d /\ is_decimal_digit (digit_char d) = true.
Proof.
  intros Hd.
  assert (d = 0 \/ d = 1 \/ d = 2 \/ d = 3 \/ d = 4 \/ d = 5 \/ d = 6 \/
          d = 7 \/ d = 8 \/ d = 9) as Hcases by lia.
  destruct Hcases as [->|[->|[->|[->|[->|[->|[->|[->|[->| ->]]]]]]]]];
    split; vm_compute; reflexivity.
Qed.

Lemma decimal_value_from_app a x y :
  decimal_value_from a (x +:+ y) = decimal_value_from (decimal_value_from a x) y.
Proof.
  revert a. induction x as [|c x IH]; intros a; [done|].
  rewrite append_cons. simpl. by rewrite IH.
Qed.

Lemma all_decimal_digits_app x y :
  all_decimal_digits (x +:+ y) = all_decimal_digits x && all_decimal_digits y.
Proof.
  induction x as [|c x IH]; [done|]. rewrite append_cons. simpl.
  by rewrite IH, andb_assoc.
Qed.

Lemma decimal_digits_fuel_spec fuel n acc :
  (0 < fuel)%nat -> 0 <= n < 2 ^ Z.of_nat fuel ->
  exists ds, decimal_digits_fuel fuel n acc = ds +:+ acc /\
             ds <> EmptyString /\
             all_decimal_digits ds = true /\
             decimal_value ds = n.
Proof.
  revert n acc. induction fuel as [|fuel IH]; intros n acc Hfuel Hn; [lia|].
  simpl decimal_digits_fuel.
  assert (0 <= n mod 10 <= 9) as Hmod by (pose proof (Z.mod_pos_bound n 10); lia).
  destruct (digit_char_spec _ Hmod) as [Hcode Hdigit].
  destruct (n <? 10) eqn:E.
  - exists (String (digit_char (n mod 10)) EmptyString).
    split; [done|]. split; [done|]. split; [simpl; by rewrite Hdigit|].
    unfold decimal_value. simpl. rewrite Hcode.
    rewrite Z.mod_small by lia. lia.
  - assert (10 <= n) as Hbig by lia.
    assert (0 <= n / 10 < 2 ^ Z.of_nat fuel) as Hdiv.
    { split; [apply Z.div_pos; lia|].
      rewrite Nat2Z.inj_succ, Z.pow_succ_r in Hn by lia.
      apply Z.div_lt_upper_bound; lia. }
    assert (0 < fuel)%nat as Hpos.
    { destruct fuel; [|lia]. simpl in Hn. lia. }
    destruct (IH (n / 10) (String (digit_char (n mod 10)) acc) Hpos Hdiv)
      as (ds & Heq & Hne & Hall & Hval).
    exists (ds +:+ String (digit_char (n mod 10)) EmptyString).
    split; [by rewrite Heq, append_assoc_s|].
    split; [by destruct ds|].
    split; [rewrite all_decimal_digits_app, Hall; simpl; by rewrite Hdigit|].
    unfold decimal_value in *. rewrite decimal_value_from_app, Hval. simpl.
    rewrite Hcode. pose proof (Z.div_mod n 10). lia.
Qed.

(** The decimal digits of a natural number denote it. *)
Lemma decimal_digits_spec n :
  0 <= n ->
  decimal_digits n <> EmptyString /\
  all_decimal_digits (decimal_digits n) = true /\
  decimal_value (decimal_digits n) = n.
Proof.
  intros Hn. unfold decimal_digits.
  destruct (decimal_digits_fuel_spec (S (Z.to_nat (Z.log2 n))) n EmptyString)
    as (ds & Heq & Hne & Hall & Hval); [lia | |].
  - split; [done|]. rewrite Nat2Z.inj_succ, Z2Nat.id by apply Z.log2_nonneg.
    destruct (Z.eq_dec n 0) as [->|Hnz]; [done|].
    apply Z.log2_spec. lia.
  - rewrite append_nil_r in Heq. by rewrite Heq.
Qed.

Lemma digit_is_no_x c :
  is_decimal_digit c = true ->
  Ascii.eqb c "x" = false /\ Ascii.eqb c "X" = false /\
  Ascii.eqb c "-" = false /\ Ascii.eqb c "+" = false /\
  is_white_space c = false /\ is_alphanumeric c = true.
Proof.
  destruct c as [[] [] [] [] [] [] [] []]; vm_compute; intuition congruence.
Qed.

Lemma has_hex_prefix_digits ds :
  all_decimal_digits ds = true -> has_hex_prefix ds = false.
Proof.
  destruct ds as [|c [|x r]]; [done..|]. simpl.
  intros [_ [Hx _]%andb_true_iff]%andb_true_iff.
  destruct (digit_is_no_x x Hx) as (-> & -> & _). apply andb_false_r.
Qed.

Lemma parseInt_decimal_digits ds :
  ds <> EmptyString -> all_decimal_digits ds = true ->
  parseInt ds = number_of_Z (decimal_value ds).
Proof.
  intros Hne Hall.
  rewrite <- (append_nil_r ds) at 1.
  apply parseInt_decimal_prefix; [done..|].
  rewrite append_nil_r. by apply has_hex_prefix_digits.
Qed.

Lemma parseInt_minus_decimal_digits ds :
  ds <> EmptyString -> all_decimal_digits ds = true ->
  parseInt (String "-" ds) = number_of_Z (- decimal_value ds).
Proof.
  intros Hne Hall.
  pose proof (leading_digits_value ds EmptyString 0 Hall eq_refl) as Hval.
  rewrite append_nil_r in Hval.
  change (parseInt (String "-" ds))
    with (let '(radix, s2) := strip_prefix ds in
          match leading_digits radix s2 with
          | [] => NaN
          | d :: l => number_of_Z (- digits_value radix (d :: l))
          end).
  rewrite strip_prefix_decimal by (by apply has_hex_prefix_digits).
  destruct ds as [|c ds]; [done|].
  simpl in Hall. apply andb_true_iff in Hall as [Hc Hall].
  simpl leading_digits in *. rewrite digit_value_decimal in * by done.
  unfold digits_value. by rewrite Hval.
Qed.

(** Reading back the text of an integer below 2^53 gives the integer. *)
Lemma parseInt_Number_toString n :
  - 2 ^ 53 < n < 2 ^ 53 -> parseInt (Number_toString (Int n)) = Int n.
Proof.
  intros Hn. unfold Number_toString, unsigned_toString.
  destruct (n <? 0) eqn:Esign.
  - destruct (- n <? 2 ^ 53) eqn:E; [|lia].
    destruct (decimal_digits_spec (- n)) as (Hne & Hall & Hval); [lia|].
    rewrite parseInt_minus_decimal_digits, Hval by done.
    unfold number_of_Z. destruct (Z.abs (- - n) <? 2 ^ 53) eqn:E'; [|lia].
    f_equal. lia.
  - destruct (n <? 2 ^ 53) eqn:E; [|lia].
    destruct (decimal_digits_spec n) as (Hne & Hall & Hval); [lia|].
    rewrite parseInt_decimal_digits, Hval by done.
    unfold number_of_Z. destruct (Z.abs n <? 2 ^ 53) eqn:E'; [done|lia].
Qed.

(** X16.  The id a row of the records table shows finds its record: in a
    store whose records all have a string for a name, searching for the
    text of a stored record's integer id (below 2^53 in size, as every
    id the store assigns is) returns that record. *)
Theorem X16_search_for_the_displayed_id_finds_the_record h s k p n :
  db h = Some s ->
  names_are_strings s ->
  patients s !! k = Some p ->
  p !! "id" = Some (VNum (Int n)) ->
  - 2 ^ 53 < n < 2 ^ 53 ->
  exists found,
    searchPatients (ToString (get_prop p "id")) h = Resolved found /\ p ∈ found.
Proof.
  intros Hdb Hnames Hk Hid Hn.
  assert (parseInt (ToString (get_prop p "id")) = Int n) as Hparse.
  { unfold get_prop. rewrite Hid. by apply parseInt_Number_toString. }
  eexists. split; [by apply searchPatients_resolves|].
  rewrite elem_of_filter_keep, elem_of_getAll.
  split; [by exists k|]. left. unfold id_matches. by rewrite Hparse.
Qed.

Lemma X16_search_displayed_id_witness :
  exists found,
    searchPatients (ToString (get_prop eleven "id")) shop_handle = Resolved found /\
    eleven ∈ found.
Proof.
  assert (names_are_strings shop_store) as Hnames by by_evaluation.
  apply (X16_search_for_the_displayed_id_finds_the_record shop_handle shop_store
           (KInt 8) eleven 8 eq_refl Hnames eq_refl eq_refl).
  split; vm_compute; reflexivity.
Defined.

End text.

Example Number_toString_examples :
  Number_toString (Int 0) = "0" /\
  Number_toString (Int (-42)) = "-42" /\
  Number_toString (Int (2 ^ 53)) = "9007199254740992" /\
  Number_toString (Int (2 ^ 64)) = "18446744073709552000" /\
  Number_toString (Int (2 ^ 70)) = "1.1805916207174113e+21" /\
  Number_toString (number_of_Z (10 ^ 21)) = "1e+21" /\
  Number_toString (number_of_Z (10 ^ 23)) = "1e+23" /\
  Number_toString (Int ((2 ^ 53 - 1) * 2 ^ 971)) = "1.7976931348623157e+308" /\
  Number_toString (Int (- 2 ^ 100)) = "-1.2676506002282294e+30".
Proof. repeat apply conj; vm_compute; reflexivity. Qed.

Example timestamp_example : timestamp pi_day = "20240314_090507".
Proof. vm_compute. reflexivity. Qed.

Example export_filename_examples :
  export_filename VUndefined VUndefined "20240314_090507"
  = Some "PG-Scan_20240314_090507.pdf" /\
  export_filename (VNum (Int 7)) (VStr "O'Neil, J.") "20240314_090507"
  = Some "PG-Scan_ID7_O_Neil__J__20240314_090507.pdf" /\
  export_filename (VNum (Int 0)) (VStr "Bob") "20240314_090507"
  = Some "PG-Scan_20240314_090507.pdf" /\
  export_filename (VNum (Int 7)) (VNum (Int 5)) "20240314_090507" = None.
Proof. repeat apply conj; vm_compute; reflexivity. Qed.

(** * White space around a search term *)

Section trimming.

Implicit Types (s : IDBDatabase) (h : PatientDatabase).

Lemma starts_clean_trim_start u : starts_clean (trim_start u) = true.
Proof.
  induction u as [|c u IH]; [done|]. simpl.
  destruct (is_white_space c) eqn:E; [done|]. simpl. by rewrite E.
Qed.

Lemma trim_start_clean v : starts_clean v = true -> trim_start v = v.
Proof.
  destruct v as [|c v]; [done|]. simpl. by intros ->%negb_true_iff.
Qed.

Lemma trim_end_cons c v :
  is_white_space c = false -> trim_end (String c v) = String c (trim_end v).
Proof. intros Hc. simpl. by rewrite Hc. Qed.

Lemma starts_clean_trim_end v :
  starts_clean v = true -> starts_clean (trim_end v) = true.
Proof.
  destruct v as [|c v]; [done|]. simpl. intros Hc%negb_true_iff.
  rewrite Hc. simpl. by rewrite Hc.
Qed.

Lemma trim_end_idempotent v : trim_end (trim_end v) = trim_end v.
Proof.
  induction v as [|c v IH]; [done|]. simpl.
  destruct (is_white_space c && is_empty (trim_end v)) eqn:E; [done|].
  simpl. by rewrite IH, E.
Qed.

Lemma trim_idempotent u : trim (trim u) = trim u.
Proof.
  unfold trim.
  rewrite (trim_start_clean (trim_end (trim_start u)))
    by apply starts_clean_trim_end, starts_clean_trim_start.
  apply trim_end_idempotent.
Qed.

Lemma white_space_is_no_digit radix c :
  is_white_space c = true -> digit_value radix c = None.
Proof.
  destruct c as [[] [] [] [] [] [] [] []]; try discriminate; reflexivity.
Qed.

Lemma leading_digits_trim_end radix w :
  leading_digits radix (trim_end w) = leading_digits radix w.
Proof.
  induction w as [|c w IH]; [done|]. simpl.
  destruct (is_white_space c) eqn:Ec; simpl.
  - rewrite (white_space_is_no_digit radix c Ec).
    destruct (is_empty (trim_end w)); [done|]. simpl.
    by rewrite (white_space_is_no_digit radix c Ec).
  - by rewrite IH.
Qed.

Lemma eqb_is_no_white_space c d :
  Ascii.eqb c d = true -> is_white_space d = false -> is_white_space c = false.
Proof. by intros ->%Ascii.eqb_eq. Qed.

Lemma strip_prefix_trim_end w :
  strip_prefix (trim_end w)
  = ((strip_prefix w).1, trim_end (strip_prefix w).2).
Proof.
  destruct w as [|c [|x r]].
  - done.
  - simpl. by destruct (is_white_space c).
  - destruct (has_hex_prefix (String c (String x r))) eqn:Ehex.
    + unfold strip_prefix at 2 3. rewrite Ehex. simpl in Ehex.
      apply andb_true_iff in Ehex as [Hc Hx].
      assert (is_white_space c = false) as Hwc
          by (by apply (eqb_is_no_white_space c "0")).
      assert (is_white_space x = false) as Hwx.
      { apply orb_true_iff in Hx as [Hx|Hx];
          [by apply (eqb_is_no_white_space x "x")
          |by apply (eqb_is_no_white_space x "X")]. }
      rewrite !trim_end_cons by done.
      unfold strip_prefix. simpl. by rewrite Hc, Hx.
    + unfold strip_prefix at 2 3. rewrite Ehex. simpl fst. simpl snd.
      remember (trim_end (String c (String x r))) as t eqn:Et.
      assert (has_hex_prefix t = false) as Ht.
      { subst t. simpl in *.
        destruct (is_white_space x && is_empty (trim_end r)); simpl.
        - by destruct (is_white_space c).
        - destruct (is_white_space c && false); [done|]. simpl. exact Ehex. }
      unfold strip_prefix. destruct t as [|a [|b t]]; [done..|]. by rewrite Ht.
Qed.

(** [parseInt] does not see white space at the end of its argument. *)
Lemma parseInt_trim_end v :
  starts_clean v = true -> parseInt (trim_end v) = parseInt v.
Proof.
  intros Hclean. unfold parseInt.
  rewrite (trim_start_clean v) by done.
  rewrite (trim_start_clean (trim_end v)) by (by apply starts_clean_trim_end).
  assert (strip_sign (trim_end v)
          = ((strip_sign v).1, trim_end (strip_sign v).2)) as ->.
  { destruct v as [|c v]; [done|]. simpl in Hclean.
    apply negb_true_iff in Hclean. rewrite trim_end_cons by done.
    unfold strip_sign. destruct (Ascii.eqb c "-"); [done|].
    destruct (Ascii.eqb c "+"); [done|]. cbn [fst snd].
    by rewrite trim_end_cons. }
  destruct (strip_sign v) as [neg s1]. simpl.
  rewrite strip_prefix_trim_end.
  destruct (strip_prefix s1) as [radix s2]. simpl.
  by rewrite leading_digits_trim_end.
Qed.

Lemma parseInt_trim t : parseInt (trim t) = parseInt t.
Proof.
  unfold trim. rewrite parseInt_trim_end by apply starts_clean_trim_start.
  unfold parseInt. by rewrite (trim_start_clean (trim_start t))
    by apply starts_clean_trim_start.
Qed.

Lemma searchPatients_trim h term :
  searchPatients (trim term) h = searchPatients term h.
Proof.
  unfold searchPatients.
  by rewrite parseInt_trim, <- toLowerCase_trim, trim_idempotent,
    toLowerCase_trim.
Qed.

(** X15.  White space around the term makes no difference to a search:
    the search box hands over [searchInput.value.trim()] and gets what
    the untrimmed text would have got. *)
Theorem X15_search_ignores_surrounding_white_space h term :
  searchPatients (trim term) h = searchPatients term h.
Proof. apply searchPatients_trim. Qed.

Lemma trim_start_finds_text t :
  all_white_space t = false ->
  exists c r, trim_start t = String c r /\ is_white_space c = false.
Proof.
  induction t as [|c t IH]; [done|]. simpl.
  destruct (is_white_space c) eqn:E; simpl; [exact IH|].
  intros _. by exists c, t.
Qed.

(** A text trims to nothing exactly when it is white space only. *)
Lemma is_empty_trim t : is_empty (trim t) = all_white_space t.
Proof.
  destruct (all_white_space t) eqn:E.
  - by rewrite trim_white_space.
  - destruct (trim_start_finds_text t E) as (c & r & Hstart & Hc).
    unfold trim. rewrite Hstart, trim_end_cons by done. done.
Qed.

End trimming.

(** * PdfExport.js: pad, timestamp and the file name *)

Section file_names.

Lemma forallb_seqZ (P : Z -> bool) (a len : Z) :
  forallb P (seqZ a len) = true -> forall n, a <= n < a + len -> P n = true.
Proof.
  rewrite forallb_forall. intros Hall n Hn. apply Hall.
  apply list_elem_of_In, elem_of_seqZ. lia.
Qed.

Lemma string_forallb_app f a b :
  string_forallb f (a +:+ b) = string_forallb f a && string_forallb f b.
Proof.
  induction a as [|c a IH]; [done|]. rewrite append_cons. simpl.
  by rewrite IH, andb_assoc.
Qed.

Lemma string_forallb_impl (f g : ascii -> bool) s :
  (forall c, f c = true -> g c = true) ->
  string_forallb f s = true -> string_forallb g s = true.
Proof.
  intros Hfg. induction s as [|c s IH]; [done|]. simpl.
  intros [Hc Hs]%andb_true_iff. by rewrite (Hfg c Hc), IH.
Qed.

Lemma all_decimal_digits_forallb s :
  all_decimal_digits s = string_forallb is_decimal_digit s.
Proof. induction s as [|c s IH]; [done|]. simpl. by rewrite IH. Qed.

Lemma append_inj_length (a a' b b' : string) :
  String.length a = String.length a' ->
  a +:+ b = a' +:+ b' -> a = a' /\ b = b'.
Proof.
  revert a'. induction a as [|c a IH]; intros [|c' a']; simpl; try done.
  intros [= Hlen]. rewrite !append_cons. intros [= -> Happ].
  destruct (IH a' Hlen Happ) as [-> ->]. done.
Qed.

(** One decimal digit denotes less than ten. *)
Lemma short_decimal_is_small ds :
  all_decimal_digits ds = true -> (String.length ds <= 1)%nat ->
  decimal_value ds <= 9.
Proof.
  destruct ds as [|c [|x r]]; simpl; [by intros | | intros; lia].
  unfold decimal_value. simpl. rewrite andb_true_r.
  unfold is_decimal_digit. intros [_ H]%andb_true_iff _. lia.
Qed.

Lemma pad_two_digits n :
  0 <= n < 100 ->
  String.length (pad (Int n)) = 2%nat /\
  all_decimal_digits (pad (Int n)) = true /\
  decimal_value (pad (Int n)) = n.
Proof.
  intros Hn.
  pose (P := fun n => Nat.eqb (String.length (pad (Int n))) 2
                     && all_decimal_digits (pad (Int n))
                     && (decimal_value (pad (Int n)) =? n)).
  assert (P n = true) as HP.
  { apply (forallb_seqZ P 0 100); [vm_compute; reflexivity | lia]. }
  unfold P in HP.
  apply andb_true_iff in HP as [[Hlen Hall]%andb_true_iff Hval].
  apply Nat.eqb_eq in Hlen. apply Z.eqb_eq in Hval. done.
Qed.

Lemma pad_long n :
  10 <= n < 2 ^ 53 -> pad (Int n) = decimal_digits n.
Proof.
  intros Hn. unfold pad, Number_toString, unsigned_toString.
  destruct (n <? 0) eqn:E; [lia|]. destruct (n <? 2 ^ 53) eqn:E'; [|lia].
  unfold padStart.
  destruct (decimal_digits_spec n) as (_ & Hall & Hval); [lia|].
  destruct (2 <=? String.length (decimal_digits n))%nat eqn:Elen; [done|].
  apply Nat.leb_gt in Elen.
  pose proof (short_decimal_is_small _ Hall). lia.
Qed.

(** X17.  [pad] never cuts a number short: for every integer from 0 to
    below 2^53 the result consists of decimal digits that denote the
    number, at least two of them, and exactly two up to 99. *)
Theorem X17_pad_keeps_the_number n :
  0 <= n < 2 ^ 53 ->
  all_decimal_digits (pad (Int n)) = true /\
  decimal_value (pad (Int n)) = n /\
  (2 <= String.length (pad (Int n)))%nat /\
  (n <= 99 -> String.length (pad (Int n)) = 2%nat).
Proof.
  intros Hn. destruct (Z.lt_ge_cases n 100) as [Hsmall|Hbig].
  - destruct (pad_two_digits n) as (Hlen & Hall & Hval); [lia|].
    rewrite Hlen. done.
  - rewrite pad_long by lia.
    destruct (decimal_digits_spec n) as (_ & Hall & Hval); [lia|].
    split; [done|]. split; [done|]. split; [|lia].
    destruct (le_lt_dec 2 (String.length (decimal_digits n))) as [|Hshort];
      [done|].
    pose proof (short_decimal_is_small _ Hall). lia.
Qed.

Lemma X17_pad_witness :
  all_decimal_digits (pad (Int 7)) = true /\
  decimal_value (pad (Int 7)) = 7 /\
  (2 <= String.length (pad (Int 7)))%nat /\
  (7 <= 99 -> String.length (pad (Int 7)) = 2%nat).
Proof. apply (X17_pad_keeps_the_number 7). lia. Defined.

Lemma year_four_digits y :
  1000 <= y <= 9999 ->
  String.length (Number_toString (Int y)) = 4%nat /\
  all_decimal_digits (Number_toString (Int y)) = true /\
  decimal_value (Number_toString (Int y)) = y.
Proof.
  intros Hy.
  pose (P := fun y => Nat.eqb (String.length (Number_toString (Int y))) 4
                     && all_decimal_digits (Number_toString (Int y))
                     && (decimal_value (Number_toString (Int y)) =? y)).
  assert (P y = true) as HP.
  { apply (forallb_seqZ P 1000 9000); [vm_compute; reflexivity | lia]. }
  unfold P in HP.
  apply andb_true_iff in HP as [[Hlen Hall]%andb_true_iff Hval].
  apply Nat.eqb_eq in Hlen. apply Z.eqb_eq in Hval. done.
Qed.

(** X18.  For a date with a four-digit year, [timestamp()] is fifteen
    characters long: eight digits [YYYYMMDD], an underscore, six digits
    [HHMMSS]. *)
Theorem X18_timestamp_has_the_shape_YYYYMMDD_HHMMSS d :
  four_digit_year d ->
  exists date time,
    timestamp d = date +:+ "_" +:+ time /\
    String.length date = 8%nat /\ all_decimal_digits date = true /\
    String.length time = 6%nat /\ all_decimal_digits time = true /\
    String.length (timestamp d) = 15%nat.
Proof.
  intros (Hy & Hm & Hd & Hh & Hmin & Hs).
  destruct (year_four_digits _ Hy) as (Ly & Ay & _).
  destruct (pad_two_digits (getMonth d + 1)) as (Lm & Am & _); [lia|].
  destruct (pad_two_digits (getDate d)) as (Ld & Ad & _); [lia|].
  destruct (pad_two_digits (getHours d)) as (Lh & Ah & _); [lia|].
  destruct (pad_two_digits (getMinutes d)) as (Lmin & Amin & _); [lia|].
  destruct (pad_two_digits (getSeconds d)) as (Ls & As & _); [lia|].
  exists (Number_toString (Int (getFullYear d)) +:+ pad (Int (getMonth d + 1))
          +:+ pad (Int (getDate d))),
         (pad (Int (getHours d)) +:+ pad (Int (getMinutes d))
          +:+ pad (Int (getSeconds d))).
  unfold timestamp.
  split; [by rewrite !append_assoc_s|].
  rewrite !length_append, !all_decimal_digits_app.
  rewrite Ly, Lm, Ld, Lh, Lmin, Ls, Ay, Am, Ad, Ah, Amin, As. done.
Qed.

Lemma X18_timestamp_shape_witness :
  exists date time,
    timestamp pi_day = date +:+ "_" +:+ time /\
    String.length date = 8%nat /\ all_decimal_digits date = true /\
    String.length time = 6%nat /\ all_decimal_digits time = true /\
    String.length (timestamp pi_day) = 15%nat.
Proof.
  apply (X18_timestamp_has_the_shape_YYYYMMDD_HHMMSS pi_day).
  unfold four_digit_year. simpl. lia.
Defined.

(** X19.  [timestamp()] tells seconds apart and nothing finer: two dates
    with four-digit years get the same text only when year, month, day,
    hour, minute and second all agree. *)
Theorem X19_timestamp_is_injective_on_seconds d1 d2 :
  four_digit_year d1 ->
  four_digit_year d2 ->
  timestamp d1 = timestamp d2 ->
  d1 = d2.
Proof.
  intros (Hy1 & Hm1 & Hd1 & Hh1 & Hmin1 & Hs1) (Hy2 & Hm2 & Hd2 & Hh2 & Hmin2 & Hs2).
  destruct (year_four_digits _ Hy1) as (Ly1 & _ & Vy1).
  destruct (year_four_digits _ Hy2) as (Ly2 & _ & Vy2).
  destruct (pad_two_digits (getMonth d1 + 1)) as (Lm1 & _ & Vm1); [lia|].
  destruct (pad_two_digits (getMonth d2 + 1)) as (Lm2 & _ & Vm2); [lia|].
  destruct (pad_two_digits (getDate d1)) as (Ld1 & _ & Vd1); [lia|].
  destruct (pad_two_digits (getDate d2)) as (Ld2 & _ & Vd2); [lia|].
  destruct (pad_two_digits (getHours d1)) as (Lh1 & _ & Vh1); [lia|].
  destruct (pad_two_digits (getHours d2)) as (Lh2 & _ & Vh2); [lia|].
  destruct (pad_two_digits (getMinutes d1)) as (Ln1 & _ & Vn1); [lia|].
  destruct (pad_two_digits (getMinutes d2)) as (Ln2 & _ & Vn2); [lia|].
  destruct (pad_two_digits (getSeconds d1)) as (_ & _ & Vs1); [lia|].
  destruct (pad_two_digits (getSeconds d2)) as (_ & _ & Vs2); [lia|].
  unfold timestamp. intros Heq.
  apply append_inj_length in Heq as [Ey Heq]; [|congruence].
  apply append_inj_length in Heq as [Em Heq]; [|congruence].
  apply append_inj_length in Heq as [Ed Heq]; [|congruence].
  apply append_inj_length in Heq as [_ Heq]; [|done].
  apply append_inj_length in Heq as [Eh Heq]; [|congruence].
  apply append_inj_length in Heq as [En Es]; [|congruence].
  rewrite Ey in Vy1. rewrite Em in Vm1. rewrite Ed in Vd1.
  rewrite Eh in Vh1. rewrite En in Vn1. rewrite Es in Vs1.
  destruct d1, d2. simpl in *. f_equal; lia.
Qed.

Lemma X19_timestamp_injective_witness :
  pi_day
  = {| getFullYear := 2024; getMonth := 1 + 1; getDate := 2 * 7;
       getHours := 9; getMinutes := 5; getSeconds := 7 |}.
Proof.
  apply X19_timestamp_is_injective_on_seconds;
    [unfold four_digit_year; simpl; lia
    |unfold four_digit_year; simpl; lia
    |vm_compute; reflexivity].
Defined.

Lemma safe_name_word_char c :
  is_word_char (if is_alphanumeric c then c else "_"%char) = true.
Proof. unfold is_word_char. by destruct (is_alphanumeric c) eqn:E; rewrite ?E. Qed.

(** X20.  The name part of a file name: [replace(/[^a-zA-Z0-9]/g, "_")]
    keeps the length, leaves only letters, digits and underscores, leaves
    a name made of letters and digits as it is, and doing it twice is the
    same as doing it once. *)
Theorem X20_safe_name_is_a_word_of_the_same_length name :
  String.length (safe_name name) = String.length name /\
  string_forallb is_word_char (safe_name name) = true /\
  safe_name (safe_name name) = safe_name name /\
  (string_forallb is_alphanumeric name = true -> safe_name name = name).
Proof.
  induction name as [|c name (IHlen & IHword & IHidem & IHfix)]; [done|].
  simpl. rewrite IHlen, IHword, safe_name_word_char, IHidem.
  split; [done|]. split; [done|]. split.
  - f_equal. destruct (is_alphanumeric c) eqn:E; [by rewrite E | done].
  - intros [-> Hrest]%andb_true_iff. by rewrite IHfix.
Qed.

Lemma word_char_is_filename_char c :
  is_word_char c = true -> is_filename_char c = true.
Proof. unfold is_word_char, is_filename_char. by intros ->. Qed.

Lemma digit_is_filename_char c :
  is_decimal_digit c = true -> is_filename_char c = true.
Proof.
  intros Hc. destruct (digit_is_no_x c Hc) as (_ & _ & _ & _ & _ & Ha).
  unfold is_filename_char. by rewrite Ha.
Qed.

Lemma digits_are_filename_chars s :
  all_decimal_digits s = true -> string_forallb is_filename_char s = true.
Proof.
  rewrite all_decimal_digits_forallb.
  apply string_forallb_impl, digit_is_filename_char.
Qed.

Lemma integer_text_is_filename_chars n :
  - 2 ^ 53 < n < 2 ^ 53 ->
  string_forallb is_filename_char (Number_toString (Int n)) = true.
Proof.
  intros Hn. unfold Number_toString, unsigned_toString.
  destruct (n <? 0) eqn:E.
  - destruct (- n <? 2 ^ 53) eqn:E'; [|lia]. simpl.
    apply digits_are_filename_chars, decimal_digits_spec. lia.
  - destruct (n <? 2 ^ 53) eqn:E'; [|lia].
    apply digits_are_filename_chars, decimal_digits_spec. lia.
Qed.

Lemma timestamp_is_filename_chars d :
  four_digit_year d -> string_forallb is_filename_char (timestamp d) = true.
Proof.
  intros (Hy & Hm & Hd & Hh & Hmin & Hs).
  destruct (year_four_digits _ Hy) as (_ & Ay & _).
  destruct (pad_two_digits (getMonth d + 1)) as (_ & Am & _); [lia|].
  destruct (pad_two_digits (getDate d)) as (_ & Ad & _); [lia|].
  destruct (pad_two_digits (getHours d)) as (_ & Ah & _); [lia|].
  destruct (pad_two_digits (getMinutes d)) as (_ & Amin & _); [lia|].
  destruct (pad_two_digits (getSeconds d)) as (_ & As & _); [lia|].
  unfold timestamp. rewrite !string_forallb_app.
  rewrite (digits_are_filename_chars _ Ay), (digits_are_filename_chars _ Am),
    (digits_are_filename_chars _ Ad), (digits_are_filename_chars _ Ah),
    (digits_are_filename_chars _ Amin), (digits_are_filename_chars _ As).
  reflexivity.
Qed.

(** X21.  Whatever the patient's name, the file name of a report is
    harmless: when the id is absent or an integer below 2^53 in size, the
    name absent or a string, and the year has four digits,
    [exportToPDF] settles on a name that starts with [PG-Scan_], ends
    with [.pdf] and holds only letters, digits, [_], [-] and [.].  Called
    without arguments, as the application does, the name is
    [PG-Scan_<timestamp>.pdf]. *)
Theorem X21_report_file_names_are_harmless patientId patientName d :
  four_digit_year d ->
  (patientId = VUndefined \/
   exists n, patientId = VNum (Int n) /\ - 2 ^ 53 < n < 2 ^ 53) ->
  (patientName = VUndefined \/ exists name, patientName = VStr name) ->
  export_filename VUndefined VUndefined (timestamp d)
  = Some ("PG-Scan_" +:+ timestamp d +:+ ".pdf") /\
  exists f stem,
    export_filename patientId patientName (timestamp d) = Some f /\
    f = "PG-Scan_" +:+ stem +:+ ".pdf" /\
    string_forallb is_filename_char f = true.
Proof.
  intros Hd Hid Hname. split; [done|].
  pose proof (timestamp_is_filename_chars d Hd) as Hts.
  assert (forall stem,
            string_forallb is_filename_char stem = true ->
            string_forallb is_filename_char ("PG-Scan_" +:+ stem +:+ ".pdf") = true)
    as Hwrap.
  { intros stem Hstem. rewrite !string_forallb_app, Hstem. done. }
  unfold export_filename.
  destruct Hid as [->|(n & -> & Hn)].
  - simpl. exists ("PG-Scan_" +:+ timestamp d +:+ ".pdf"), (timestamp d).
    split; [done|]. split; [done|]. by apply Hwrap.
  - pose proof (integer_text_is_filename_chars n Hn) as Hnum.
    destruct (ToBoolean (VNum (Int n))) eqn:Etruth.
    + destruct Hname as [->|(name & ->)].
      * simpl.
        exists ("PG-Scan_ID" +:+ Number_toString (Int n) +:+ "_" +:+ timestamp d
                +:+ ".pdf"),
               ("ID" +:+ Number_toString (Int n) +:+ "_" +:+ timestamp d).
        split; [done|]. split; [by rewrite !append_assoc_s|].
        rewrite !string_forallb_app, Hnum, Hts. done.
      * destruct (ToBoolean (VStr name)) eqn:Ename; simpl.
        -- assert (string_forallb is_filename_char (safe_name name) = true)
             as Hsafe.
           { clear. induction name as [|c name IH]; [done|]. simpl.
             by rewrite (word_char_is_filename_char _ (safe_name_word_char c)), IH. }
           exists ("PG-Scan_ID" +:+ Number_toString (Int n) +:+ "_"
                   +:+ safe_name name +:+ "_" +:+ timestamp d +:+ ".pdf"),
                  ("ID" +:+ Number_toString (Int n) +:+ "_" +:+ safe_name name
                   +:+ "_" +:+ timestamp d).
           split; [done|]. split; [by rewrite !append_assoc_s|].
           rewrite !string_forallb_app, Hnum, Hsafe, Hts. done.
        -- exists ("PG-Scan_ID" +:+ Number_toString (Int n) +:+ "_" +:+ timestamp d
                   +:+ ".pdf"),
                  ("ID" +:+ Number_toString (Int n) +:+ "_" +:+ timestamp d).
           split; [done|]. split; [by rewrite !append_assoc_s|].
           rewrite !string_forallb_app, Hnum, Hts. done.
    + simpl. exists ("PG-Scan_" +:+ timestamp d +:+ ".pdf"), (timestamp d).
      split; [done|]. split; [done|]. by apply Hwrap.
Qed.

Lemma X21_file_name_witness :
  exists f stem,
    export_filename (VNum (Int 7)) (VStr "O'Neil, J./../x") (timestamp pi_day)
    = Some f /\
    f = "PG-Scan_" +:+ stem +:+ ".pdf" /\
    string_forallb is_filename_char f = true.
Proof.
  assert (four_digit_year pi_day) as Hd by (unfold four_digit_year; simpl; lia).
  destruct (X21_report_file_names_are_harmless (VNum (Int 7))
              (VStr "O'Neil, J./../x") pi_day Hd) as [_ Hf].
  - right. exists 7. split; [reflexivity | lia].
  - right. by eexists.
  - exact Hf.
Defined.

End file_names.

(** * PdfExport.js: the confidence text *)

Section confidence_text.

Lemma concat_lines_head (first : string) (more : list string) :
  exists rest, String.concat newline (first :: more) = first +:+ rest.
Proof.
  destruct more as [|second more]; simpl.
  - exists EmptyString. by rewrite append_nil_r.
  - by eexists.
Qed.

Lemma starts_clean_append (a b : string) :
  a <> EmptyString -> starts_clean a = true -> starts_clean (a +:+ b) = true.
Proof. destruct a; [done|]. by rewrite append_cons. Qed.

Lemma starts_clean_trim t : starts_clean (trim t) = true.
Proof. apply starts_clean_trim_end, starts_clean_trim_start. Qed.

Lemma is_empty_false (t : string) : is_empty t = false <-> t <> EmptyString.
Proof. destruct t; simpl; split; congruence. Qed.

(** X22.  [getConfidenceText] never returns an empty text, nor one that
    starts with white space; it returns "No confidence values available."
    when there is no label container and when neither a child of the
    container nor the container itself has any text but white space. *)
Theorem X22_confidence_text_is_never_empty c :
  getConfidenceText c <> EmptyString /\
  starts_clean (getConfidenceText c) = true /\
  (c = None -> getConfidenceText c = no_confidence) /\
  (forall box,
      c = Some box ->
      Forall (fun el => all_white_space (element_text el) = true) (children box) ->
      all_white_space (element_text (container_element box)) = true ->
      getConfidenceText c = no_confidence).
Proof.
  destruct c as [box|]; [|done]. simpl.
  set (lines := List.filter (fun t => negb (is_empty t))
                  (map (fun el => trim (element_text el)) (children box))).
  assert (Forall (fun t => t <> EmptyString /\ starts_clean t = true) lines)
    as Hlines.
  { apply Forall_forall. intros t [Hin Ht]%list_elem_of_In%filter_In.
    apply negb_true_iff, is_empty_false in Ht. split; [done|].
    apply list_elem_of_In, list_elem_of_fmap in Hin as (el & -> & _).
    apply starts_clean_trim. }
  split; [|split; [|split; [done|]]].
  - destruct lines as [|first more]; cbn [length Nat.eqb negb].
    + destruct (is_empty (trim _)) eqn:E; [done | by apply is_empty_false].
    + apply Forall_cons in Hlines as [[Hne _] _].
      destruct (concat_lines_head first more) as [rest ->]. by destruct first.
  - destruct lines as [|first more]; cbn [length Nat.eqb negb].
    + destruct (is_empty (trim _)) eqn:E; [done | apply starts_clean_trim].
    + apply Forall_cons in Hlines as [[Hne Hclean] _].
      destruct (concat_lines_head first more) as [rest ->].
      by apply starts_clean_append.
  - intros box' [= <-] Hblank Hbox.
    assert (lines = []) as ->.
    { unfold lines. clear -Hblank. induction Hblank as [|el els Hel _ IH]; [done|].
      cbn [map List.filter]. by rewrite (trim_white_space _ Hel). }
    cbn [length Nat.eqb negb]. by rewrite (trim_white_space _ Hbox).
Qed.

End confidence_text.

(** * TeachableScript.js: the class that is shown *)

Section pick.

Lemma names_pg_includes p :
  includes (toLowerCase (className p)) "pg" = true <-> names_pg p.
Proof. apply includes_spec. Qed.

(** X23.  The loop of [predict] picks the first of the first
    [maxPredictions] classes whose lower-cased name contains "pg"; it
    picks none when none of them does, and it throws exactly when the
    prediction has fewer than [maxPredictions] entries and none of them
    is named so. *)
Theorem X23_predict_shows_the_first_class_named_pg maxPredictions prediction :
  (forall p,
      find_pg maxPredictions prediction = Some (Some p) <->
      exists earlier later,
        prediction = (earlier ++ p :: later)%list /\
        (length earlier < maxPredictions)%nat /\
        names_pg p /\ Forall (fun q => ~ names_pg q) earlier) /\
  (find_pg maxPredictions prediction = Some None <->
   (maxPredictions <= length prediction)%nat /\
   Forall (fun q => ~ names_pg q) (take maxPredictions prediction)) /\
  (find_pg maxPredictions prediction = None <->
   (length prediction < maxPredictions)%nat /\
   Forall (fun q => ~ names_pg q) prediction).
Proof.
  revert prediction.
  induction maxPredictions as [|n IH]; intros prediction; simpl.
  - split; [|split].
    + intros p. split; [done|]. intros (? & ? & _ & ? & _). lia.
    + split; [|done]. intros _. split; [lia|]. rewrite take_0. constructor.
    + split; [done|]. intros [? _]. lia.
  - destruct prediction as [|q more]; simpl.
    + split; [|split].
      * intros p. split; [done|]. intros (earlier & ? & Heq & _).
        by destruct earlier.
      * split; [done|]. intros [? _]. lia.
      * split; [|done]. intros _. split; [lia | constructor].
    + destruct (IH more) as (IHsome & IHnone & IHthrow).
      destruct (includes (toLowerCase (className q)) "pg") eqn:E.
      * apply names_pg_includes in E. split; [|split].
        -- intros p. split.
           ++ intros [= <-]. exists [], more. repeat split; [simpl; lia | done | constructor].
           ++ intros (earlier & later & Heq & _ & Hp & Hno).
              destruct earlier as [|q' earlier]; simpl in Heq.
              ** by injection Heq as ->.
              ** injection Heq as -> _. by apply Forall_cons in Hno as [Hno _].
        -- split; [done|]. intros [_ Hno]. by apply Forall_cons in Hno as [Hno _].
        -- split; [done|]. intros [_ Hno]. by apply Forall_cons in Hno as [Hno _].
      * assert (~ names_pg q) as Hq.
        { intros Hq%names_pg_includes. congruence. }
        split; [|split].
        -- intros p. rewrite IHsome. split.
           ++ intros (earlier & later & -> & Hlen & Hp & Hno).
              exists (q :: earlier), later.
              repeat split; [simpl; lia | done | by constructor].
           ++ intros (earlier & later & Heq & Hlen & Hp & Hno).
              destruct earlier as [|q' earlier]; simpl in Heq.
              ** injection Heq as -> _. done.
              ** injection Heq as -> ->. apply Forall_cons in Hno as [_ Hno].
                 exists earlier, later. simpl in Hlen.
                 repeat split; [lia | done | done].
        -- rewrite IHnone. split.
           ++ intros [Hlen Hno]. split; [lia | by constructor].
           ++ intros [Hlen Hno]. apply Forall_cons in Hno as [_ Hno].
              split; [lia | done].
        -- rewrite IHthrow. split.
           ++ intros [Hlen Hno]. split; [lia | by constructor].
           ++ intros [Hlen Hno]. apply Forall_cons in Hno as [_ Hno].
              split; [lia | done].
Qed.

End pick.

(** * PdfExport.js: the report and its blob *)

Section report.

Context `{JsPDF}.

Lemma report_head_draws_no_confidence env head y :
  report_head env = Some (head, y) ->
  forall op, op ∈ head -> ~ draws_confidence op.
Proof.
  unfold report_head. intros Hhead op Hop [(x & y' & ->) | (l & x & y' & ->)].
  - destruct (snapshot env) as [imgData|];
      [destruct (is_empty imgData);
        [|destruct (image_size env) as [[iw ih]|]; [|done]]|];
      injection Hhead as <- _;
      repeat (apply elem_of_cons in Hop as [Hop|Hop]; [discriminate Hop|]);
      by apply elem_of_nil in Hop.
  - destruct (snapshot env) as [imgData|];
      [destruct (is_empty imgData);
        [|destruct (image_size env) as [[iw ih]|]; [|done]]|];
      injection Hhead as <- _;
      repeat (apply elem_of_cons in Hop as [Hop|Hop]; [discriminate Hop|]);
      by apply elem_of_nil in Hop.
Qed.

(** X24.  The blob [exportToPDF] returns is taken before the confidence
    section is written: whenever the promise resolves, the blob is the
    serialisation of a document in which neither the "Confidence Levels"
    heading nor the confidence lines are drawn, while the file handed to
    [pdf.save] under the same name is the serialisation of that document
    followed by the heading and the lines of [getConfidenceText()]. *)
Theorem X24_the_returned_blob_lacks_the_confidence_section
    patientId patientName env r saved :
  exportToPDF patientId patientName env = (Resolved r, saved) ->
  exists head tail y y',
    pdfBlob r = output head /\
    (forall op, op ∈ head -> ~ draws_confidence op) /\
    saved = Some (filename r, output (head ++ tail)%list) /\
    Text "Confidence Levels" margin y ∈ tail /\
    TextLines (splitTextToSize (getConfidenceText (label_container env))
                 (PrimFloat.sub (page_width env) (PrimFloat.mul margin 2)))
              margin y' ∈ tail.
Proof.
  unfold exportToPDF.
  destruct (report_head env) as [[head y]|] eqn:Hhead; [|done].
  destruct (export_filename _ _ _) as [f|]; [|done].
  intros [= <- <-]. simpl.
  exists head, (report_tail env y), y.
  assert (forall op : pdf_op, forall l : list pdf_op, In op l -> op ∈ l) as Hin
      by (intros op l; apply list_elem_of_In).
  unfold report_tail. cbv zeta.
  destruct (PrimFloat.ltb _ _);
    [exists margin | exists (PrimFloat.add y 16)];
    (split; [done|]);
    (split; [by eapply report_head_draws_no_confidence|]);
    (split; [done|]); split; apply Hin; simpl; auto 10.
Qed.

End report.

#[local] Existing Instance sample_jsPDF.

Lemma X24_blob_witness :
  exists r head tail y,
    (exportToPDF VUndefined VUndefined sample_env).1 = Resolved r /\
    pdfBlob r = output head /\
    (forall op, op ∈ head -> ~ draws_confidence op) /\
    (exportToPDF VUndefined VUndefined sample_env).2
    = Some (filename r, output (head ++ tail)%list) /\
    Text "Confidence Levels" margin y ∈ tail.
Proof.
  destruct (exportToPDF VUndefined VUndefined sample_env) as [p saved] eqn:E.
  assert (exists r, p = Resolved r) as [r ->].
  { vm_compute in E. injection E as <- _. by eexists. }
  destruct (X24_the_returned_blob_lacks_the_confidence_section
              VUndefined VUndefined sample_env r saved E)
    as (head & tail & y & y' & Hblob & Hhead & Hsaved & Hheading & _).
  exists r, head, tail, y. done.
Defined.

(** * App.js: saving, downloading and listing records *)

Section application.

Context `{JsPDF} `{Locale}.

Implicit Types (s : IDBDatabase) (h : PatientDatabase) (a : App).

Lemma addPatient_plain h s now patientData :
  db h = Some s ->
  wf_db s ->
  patientData !! "id" = None ->
  current_number s <= 2 ^ 53 ->
  let s' := {| patients := <[KInt (current_number s) :=
                               stored (current_number s) now patientData]>
                             (patients s);
               current_number := current_number s + 1 |} in
  addPatient now patientData h
  = (Resolved (VNum (Int (current_number s))), set_db h s') /\ wf_db s'.
Proof.
  intros Hdb Hwf Hnone Hle s'.
  assert (add (<["createdAt" := VStr now]> patientData) s
          = Success (KInt (current_number s)) s') as Hadd.
  { unfold add, store_record.
    rewrite evaluate_key_path_createdAt, (evaluate_key_path_None _ Hnone).
    destruct (2 ^ 53 <? current_number s) eqn:E; [lia|].
    rewrite wf_db_fresh by done.
    by rewrite bool_decide_eq_false_2 by (by intros [? ?]). }
  split.
  - unfold addPatient. by rewrite Hdb, Hadd.
  - by eapply wf_store_record.
Qed.

Lemma exportToPDF_filename env r saved :
  exportToPDF VUndefined VUndefined env = (Resolved r, saved) ->
  filename r = "PG-Scan_" +:+ timestamp (clock env) +:+ ".pdf".
Proof.
  unfold exportToPDF. destruct (report_head env) as [[head y]|]; [|done].
  simpl. by intros [= <- _].
Qed.

(** One click on the export button with the form's data in hand. *)
Lemma export_saves env now a data s r saved :
  currentPatientData a = Some data ->
  data !! "id" = None ->
  db (patientDB a) = Some s ->
  wf_db s ->
  current_number s <= 2 ^ 53 ->
  exportToPDF VUndefined VUndefined env = (Resolved r, saved) ->
  let id := current_number s in
  let data' := <["pdfBlob" := VBlob (pdfBlob r)]>
                 (<["pdfFilename" := VStr (filename r)]> data) in
  let s' := {| patients := <[KInt id := stored id now data']> (patients s);
               current_number := id + 1 |} in
  exportToPDFWithPatient env now a
  = ({| currentPatientData := Some data';
        patientDB := set_db (patientDB a) s' |},
     [Alert ("Patient record saved successfully! Record ID: "
             +:+ Number_toString (Int id))]) /\
  wf_db s' /\ data' !! "id" = None.
Proof.
  intros Hdata Hid Hdb Hwf Hle Hexport id data' s'.
  assert (data' !! "id" = None) as Hid'.
  { unfold data'. by rewrite !lookup_insert_ne. }
  destruct (addPatient_plain (patientDB a) s now data' Hdb Hwf) as [Hadd Hwf'];
    [done | done |].
  split; [|done].
  unfold exportToPDFWithPatient. rewrite Hdata, Hexport. simpl.
  fold data'. by rewrite Hadd.
Qed.

(** X25.  Every click on the export button stores one more record.  With
    the form's data in hand (it carries no id) and room in the key
    generator, two exports in a row both report success, with the next
    two ids, and leave two records that agree on every field of the form;
    each carries the file name and the blob of its own export. *)
Theorem X25_each_export_stores_one_more_record
    env1 env2 now1 now2 a data s r1 saved1 r2 saved2 :
  currentPatientData a = Some data ->
  data !! "id" = None ->
  db (patientDB a) = Some s ->
  wf_db s ->
  current_number s + 1 <= 2 ^ 53 ->
  exportToPDF VUndefined VUndefined env1 = (Resolved r1, saved1) ->
  exportToPDF VUndefined VUndefined env2 = (Resolved r2, saved2) ->
  let id := current_number s in
  exists a1 a2 rec1 rec2,
    exportToPDFWithPatient env1 now1 a
    = (a1, [Alert ("Patient record saved successfully! Record ID: "
                   +:+ Number_toString (Int id))]) /\
    exportToPDFWithPatient env2 now2 a1
    = (a2, [Alert ("Patient record saved successfully! Record ID: "
                   +:+ Number_toString (Int (id + 1)))]) /\
    getPatientById (VNum (Int id)) (patientDB a2) = Resolved (Some rec1) /\
    getPatientById (VNum (Int (id + 1))) (patientDB a2) = Resolved (Some rec2) /\
    rec1 !! "pdfFilename" = Some (VStr (filename r1)) /\
    rec1 !! "pdfBlob" = Some (VBlob (pdfBlob r1)) /\
    rec2 !! "pdfFilename" = Some (VStr (filename r2)) /\
    rec2 !! "pdfBlob" = Some (VBlob (pdfBlob r2)) /\
    forall f, f <> "id" -> f <> "createdAt" ->
              f <> "pdfFilename" -> f <> "pdfBlob" ->
              rec1 !! f = data !! f /\ rec2 !! f = data !! f.
Proof.
  intros Hdata Hid Hdb Hwf Hle Hexp1 Hexp2 id.
  set (data1 := <["pdfBlob" := VBlob (pdfBlob r1)]>
                  (<["pdfFilename" := VStr (filename r1)]> data)).
  set (data2 := <["pdfBlob" := VBlob (pdfBlob r2)]>
                  (<["pdfFilename" := VStr (filename r2)]> data1)).
  destruct (export_saves env1 now1 a data s r1 saved1 Hdata Hid Hdb Hwf)
    as (E1 & Hwf1 & Hid1); [lia | done |].
  fold id data1 in E1, Hwf1, Hid1.
  match type of E1 with _ = (?x, _) => set (a1 := x) in * end.
  destruct (export_saves env2 now2 a1 data1 _ r2 saved2 eq_refl Hid1 eq_refl Hwf1)
    as (E2 & _ & _); [simpl; lia | done |].
  simpl in E2. fold data2 in E2.
  match type of E2 with _ = (?x, _) => set (a2 := x) in * end.
  exists a1, a2, (stored id now1 data1), (stored (id + 1) now2 data2).
  split; [exact E1|]. split; [exact E2|].
  unfold getPatientById. simpl.
  rewrite lookup_insert_ne by (intros [=]; lia).
  rewrite !lookup_insert_eq.
  split; [reflexivity|]. split; [reflexivity|].
  unfold stored, data2, data1.
  split; [by rewrite !lookup_insert_ne, lookup_insert_eq by done|].
  split; [by rewrite !lookup_insert_ne, lookup_insert_eq by done|].
  split; [by rewrite !lookup_insert_ne, lookup_insert_eq by done|].
  split; [by rewrite !lookup_insert_ne, lookup_insert_eq by done|].
  intros f ? ? ? ?. by rewrite !lookup_insert_ne by done.
Qed.

(** X26.  The PDF a record gives back is the blob its export returned:
    after an export was saved, [downloadPatientPDF] of the new id hands
    out that very blob under the file name of the export.  An id no
    record has, and a record without a blob, end in the "not available"
    alert. *)
Theorem X26_download_returns_the_exported_blob env now a data s r saved :
  currentPatientData a = Some data ->
  data !! "id" = None ->
  db (patientDB a) = Some s ->
  wf_db s ->
  current_number s <= 2 ^ 53 ->
  exportToPDF VUndefined VUndefined env = (Resolved r, saved) ->
  let a' := (exportToPDFWithPatient env now a).1 in
  downloadPatientPDF (VNum (Int (current_number s))) a'
  = Some (Download (pdfBlob r) (filename r)) /\
  (forall id k,
      convert_value_to_key id = Some k ->
      patients s !! k = None ->
      downloadPatientPDF id a = Some (Alerted pdf_not_available)) /\
  (forall id k p,
      convert_value_to_key id = Some k ->
      patients s !! k = Some p ->
      p !! "pdfBlob" = None ->
      downloadPatientPDF id a = Some (Alerted pdf_not_available)).
Proof.
  intros Hdata Hid Hdb Hwf Hle Hexport a'.
  destruct (export_saves env now a data s r saved Hdata Hid Hdb Hwf Hle Hexport)
    as (E & _ & _).
  split; [|split].
  - unfold a'. rewrite E. unfold downloadPatientPDF, getPatientById. simpl.
    rewrite lookup_insert_eq. unfold stored, get_prop.
    rewrite !lookup_insert_ne, lookup_insert_eq by done. simpl.
    rewrite !lookup_insert_ne, lookup_insert_eq by done. simpl.
    by rewrite (exportToPDF_filename _ _ _ Hexport).
  - intros id k Hk Habs. unfold downloadPatientPDF, getPatientById.
    by rewrite Hdb, Hk, Habs.
  - intros id k p Hk Hp Hblob. unfold downloadPatientPDF, getPatientById.
    rewrite Hdb, Hk, Hp. unfold get_prop. by rewrite Hblob.
Qed.

Lemma rows_append (patients : list object) (html : string) :
  fold_left (fun html patient => html +:+ record_row patient) patients html
  = html +:+ fold_left (fun html patient => html +:+ record_row patient)
               patients EmptyString.
Proof.
  revert html. induction patients as [|p ps IH]; intros html; simpl.
  - by rewrite append_nil_r.
  - rewrite (IH (html +:+ record_row p)), (IH (EmptyString +:+ record_row p)).
    by rewrite append_nil, append_assoc_s.
Qed.

Lemma rows_contain (patients : list object) p :
  p ∈ patients ->
  exists pre post,
    fold_left (fun html patient => html +:+ record_row patient)
      patients EmptyString
    = pre +:+ record_row p +:+ post.
Proof.
  induction patients as [|q ps IH]; [by intros ?%elem_of_nil|].
  simpl. rewrite rows_append, append_nil. intros [->|Hin]%elem_of_cons.
  - by exists EmptyString, (fold_left (fun html patient => html +:+ record_row patient)
                        ps EmptyString).
  - destruct (IH Hin) as (pre & post & ->).
    exists (record_row q +:+ pre), post. by rewrite append_assoc_s.
Qed.

Lemma includes_append_r (a b t : string) :
  includes b t = true -> includes (a +:+ b) t = true.
Proof.
  intros (pre & post & ->)%includes_spec. apply includes_spec.
  exists (a +:+ pre), post. by rewrite append_assoc_s.
Qed.

Lemma includes_append_l (a b t : string) :
  includes a t = true -> includes (a +:+ b) t = true.
Proof.
  intros (pre & post & ->)%includes_spec. apply includes_spec.
  exists pre, (post +:+ b). by rewrite !append_assoc_s.
Qed.

Lemma td_cell (content rest : string) :
  includes ("      <td>" +:+ content +:+ "</td>" +:+ rest)
           ("<td>" +:+ content +:+ "</td>") = true.
Proof.
  apply includes_spec. exists "      ", rest. by rewrite !append_assoc_s.
Qed.

(** The row of a record holds its name as a table cell, as it is. *)
Lemma record_row_name p :
  includes (record_row p)
           ("<td>" +:+ ToString (get_prop p "name") +:+ "</td>") = true.
Proof.
  unfold record_row. cbv zeta.
  do 6 apply includes_append_r. apply td_cell.
Qed.

(** X27.  The records table: an empty list shows "No records found.";
    otherwise every record of the list has its row in the table, and the
    row holds the record's name between [<td>] and [</td>] exactly as it
    is stored, markup included: nothing is escaped. *)
Theorem X27_the_table_shows_every_name_as_stored (patients : list object) p name :
  displayRecords [] = no_records /\
  (p ∈ patients ->
   get_prop p "name" = VStr name ->
   (exists pre post, displayRecords patients = pre +:+ record_row p +:+ post) /\
   includes (displayRecords patients) ("<td>" +:+ name +:+ "</td>") = true).
Proof.
  split; [done|]. intros Hin Hname.
  assert (exists pre post,
             displayRecords patients = pre +:+ record_row p +:+ post) as Hrow.
  { destruct patients as [|q ps]; [by apply elem_of_nil in Hin|].
    unfold displayRecords. rewrite rows_append.
    destruct (rows_contain _ _ Hin) as (pre & post & ->).
    exists (table_head +:+ pre), (post +:+ "</tbody></table>").
    by rewrite !append_assoc_s. }
  split; [done|]. destruct Hrow as (pre & post & ->).
  apply includes_append_r, includes_append_l.
  pose proof (record_row_name p) as Hcell. rewrite Hname in Hcell.
  exact Hcell.
Qed.

End application.

#[local] Existing Instance sample_locale.

Lemma sample_export_resolves :
  exists r saved,
    exportToPDF VUndefined VUndefined sample_env = (Resolved r, saved).
Proof.
  destruct (exportToPDF VUndefined VUndefined sample_env) as [p saved] eqn:E.
  assert (exists r, p = Resolved r) as [r ->].
  { vm_compute in E. injection E as <- _. by eexists. }
  by exists r, saved.
Qed.

Lemma X25_two_exports_witness :
  exists a1 a2,
    exportToPDFWithPatient sample_env iso_2024 sample_app
    = (a1, [Alert "Patient record saved successfully! Record ID: 1"]) /\
    exportToPDFWithPatient sample_env iso_2024 a1
    = (a2, [Alert "Patient record saved successfully! Record ID: 2"]).
Proof.
  destruct sample_export_resolves as (r & saved & E).
  assert (wf_db createObjectStore) as Hwf by by_evaluation.
  destruct (X25_each_export_stores_one_more_record sample_env sample_env
              iso_2024 iso_2024 sample_app
              (form_data " Bob " "45" "M" EmptyString) createObjectStore
              r saved r saved eq_refl eq_refl eq_refl Hwf)
    as (a1 & a2 & _ & _ & E1 & E2 & _); [simpl; lia | exact E | exact E |].
  by exists a1, a2.
Defined.

Lemma X26_download_witness :
  exists r,
    (exportToPDF VUndefined VUndefined sample_env).1 = Resolved r /\
    downloadPatientPDF (VNum (Int 1))
      (exportToPDFWithPatient sample_env iso_2024 sample_app).1
    = Some (Download (pdfBlob r) (filename r)).
Proof.
  destruct sample_export_resolves as (r & saved & E).
  assert (wf_db createObjectStore) as Hwf by by_evaluation.
  destruct (X26_download_returns_the_exported_blob sample_env iso_2024
              sample_app (form_data " Bob " "45" "M" EmptyString)
              createObjectStore r saved eq_refl eq_refl eq_refl Hwf)
    as (Hdownload & _); [simpl; lia | exact E |].
  exists r. split; [by rewrite E | exact Hdownload].
Defined.

Section search_box.

Context `{Locale}.

(** X28.  The search button never searches for nothing: on an input that
    is empty or white space only it leaves the list as it is; on any
    other input it shows the table of what [searchPatients] finds for the
    input as typed, and leaves the list as it is when that promise does
    not resolve. *)
Theorem X28_the_search_button_skips_blank_input input a :
  search_click input a
  = if all_white_space input then None
    else match searchPatients input (patientDB a) with
         | Resolved results => Some (displayRecords results)
         | _ => None
         end.
Proof.
  unfold search_click. rewrite is_empty_trim.
  destruct (all_white_space input); [done|].
  by rewrite searchPatients_trim.
Qed.

End search_box.
